(** * cars.co.za scraper: a shallow embedding of [scraper.py] and [parser.py]

    The development follows the two source files.  JSON documents are a
    tree type [json]; the three [queue.Queue] objects are records holding
    the queued items and Python's [unfinished_tasks] counter; the result
    folder is a finite map from paths to file contents, and every file
    operation of a flush can be made to fail by a fault plan, so that the
    [try]/[except] paths of the source are exercised.

    Library functions that are not code of this repository ([json.dump],
    [json.load], the formatting of a value inside an f-string) are fields
    of the class [External]. *)

From Stdlib Require Import ZArith QArith List String Ascii Lia.
From stdpp Require Import base option list strings pretty gmap.

Set Warnings "-register-all".

Open Scope string_scope.
Open Scope list_scope.
Open Scope Z_scope.

(** ** Python values and exceptions *)

(** A value as [json.load] and [Response.json()] build it.  Numbers are
    kept as integers; no function of the scraper computes with them.  A
    [dict] keeps its insertion order, so it is an association list. *)
Inductive json : Type :=
| JNull
| JBool (b : bool)
| JNum (n : Z)
| JStr (s : string)
| JList (xs : list json)
| JDict (kvs : list (string * json)).

(** The exception classes the two files can meet; all derive from
    [Exception]. *)
Inductive exn : Type :=
| KeyError
| TypeError
| IndexError
| AttributeError
| ValueError
| OSError
| JSONDecodeError
| UnicodeDecodeError
| RequestException.

Inductive result (A : Type) : Type :=
| Ok (a : A)
| Raise (e : exn).
Arguments Ok {A} a.
Arguments Raise {A} e.

Definition rbind {A B} (r : result A) (k : A -> result B) : result B :=
  match r with
  | Ok a => k a
  | Raise e => Raise e
  end.

Notation "'do' x <- r ; k" := (rbind r (fun x => k))
  (at level 10, x name, r at level 100, k at level 200).

(** [d.get]-style lookup in an insertion-ordered dictionary. *)
Fixpoint dict_get {V} (k : string) (kvs : list (string * V)) : option V :=
  match kvs with
  | [] => None
  | (k', v) :: rest => if String.eqb k k' then Some v else dict_get k rest
  end.

(** [d[k] = v]: an existing key keeps its position, a new key goes last. *)
Fixpoint dict_set {V} (k : string) (v : V) (kvs : list (string * V))
  : list (string * V) :=
  match kvs with
  | [] => [(k, v)]
  | (k', v') :: rest =>
      if String.eqb k k' then (k, v) :: rest else (k', v') :: dict_set k v rest
  end.

Fixpoint dict_del {V} (k : string) (kvs : list (string * V))
  : list (string * V) :=
  match kvs with
  | [] => []
  | (k', v') :: rest =>
      if String.eqb k k' then dict_del k rest else (k', v') :: dict_del k rest
  end.

(** [v[k]] for a string key [k]. *)
Definition getitem (v : json) (k : string) : result json :=
  match v with
  | JDict kvs =>
      match dict_get k kvs with
      | Some x => Ok x
      | None => Raise KeyError
      end
  | _ => Raise TypeError
  end.

(** The characters of a string, each a one-character string. *)
Fixpoint chars (s : string) : list json :=
  match s with
  | EmptyString => []
  | String c rest => JStr (String c EmptyString) :: chars rest
  end.

(** [v[i]] for an integer index [i >= 0] (the source only writes [[0]]). *)
Definition getitem_idx (v : json) (i : nat) : result json :=
  match v with
  | JList xs =>
      match nth_error xs i with
      | Some x => Ok x
      | None => Raise IndexError
      end
  | JStr s =>
      match nth_error (chars s) i with
      | Some x => Ok x
      | None => Raise IndexError
      end
  | JDict _ => Raise KeyError
  | _ => Raise TypeError
  end.

(** What [for x in v] iterates over. *)
Definition py_iter (v : json) : result (list json) :=
  match v with
  | JList xs => Ok xs
  | JStr s => Ok (chars s)
  | JDict kvs => Ok (map (fun kv => JStr (fst kv)) kvs)
  | _ => Raise TypeError
  end.

(** [format(v, "<5")]: [None], lists and dicts refuse a format spec. *)
Definition accepts_format_spec (v : json) : bool :=
  match v with
  | JNull | JList _ | JDict _ => false
  | _ => true
  end.

(** ** What the scraper takes from outside the repository *)

Class External : Type := {
  (** [os.path.join(os.path.dirname(__file__), "runs")] *)
  RESULT_FOLDER_PATH : string;
  (** the run's file name, set by [__main__] from the prompt *)
  FILENAME : string;
  (** the text [json.dump(obj, f, indent=4)] writes *)
  json_dump : json -> string;
  (** [json.load] on the text of a file; [None] stands for
      [json.JSONDecodeError] *)
  json_load : string -> option json;
  (** the text of [{v}] inside an f-string *)
  py_format : json -> string
}.

(** ** Constants *)

Definition CAR_DATA_LINK : string := "https://api.cars.co.za/fw/public/v2/specs".
Definition BATCH_SIZE : Z := 10000.
Definition TIMEOUT_SECONDS : Q := 30 # 1.

(** ** Paths *)

(** [posixpath.join] on two components. *)
Definition ends_with_sep (a : string) : bool :=
  match rev (list_ascii_of_string a) with
  | c :: _ => Ascii.eqb c "/"%char
  | [] => false
  end.

Definition starts_with_sep (b : string) : bool :=
  match b with
  | String c _ => Ascii.eqb c "/"%char
  | EmptyString => false
  end.

Definition os_path_join (a b : string) : string :=
  if starts_with_sep b then b
  else if (String.eqb a "" || ends_with_sep a)%bool then a +:+ b
  else a +:+ "/" +:+ b.

(** ** The shared state: three queues and the result folder *)

(** [queue.Queue]: the queued items and the count of items put and not
    yet marked done. *)
Record Queue (A : Type) : Type := {
  items : list A;
  unfinished_tasks : Z
}.
Arguments items {A} q.
Arguments unfinished_tasks {A} q.

Definition put {A} (x : A) (q : Queue A) : Queue A :=
  {| items := items q ++ [x]; unfinished_tasks := unfinished_tasks q + 1 |}.

(** [get()] on an empty queue blocks: [None]. *)
Definition get {A} (q : Queue A) : option (A * Queue A) :=
  match items q with
  | [] => None
  | x :: rest => Some (x, {| items := rest; unfinished_tasks := unfinished_tasks q |})
  end.

(** [task_done()] raises [ValueError] when called more often than [put]. *)
Definition task_done {A} (q : Queue A) : result (Queue A) :=
  let unfinished := unfinished_tasks q - 1 in
  if unfinished <? 0 then Raise ValueError
  else Ok {| items := items q; unfinished_tasks := unfinished |}.

Inductive queue_name : Type :=
| PageQueue       (* [search_page_request_queue] *)
| DetailQueue     (* [car_data_request_queue] *)
| ResultQueue.    (* [car_data_result_queue] *)

(** The operations a flush performs on the folder, in the order of the
    source; a fault plan names the one that raises.  The folder holds the
    text of each file: a store whose bytes are not text in the encoding
    [open] uses is met as the fault [AtDecode]. *)
Inductive io_point : Type :=
| AtOpenRead                    (* [open(path, 'r')] *)
| AtRead                        (* reading inside [json.load]: [OSError] *)
| AtDecode                      (* decoding inside [json.load]: [UnicodeDecodeError] *)
| AtOpenWrite                   (* [open(temp_filename, 'w')] *)
| AtWrite (written : nat)       (* [json.dump] after [written] characters *)
| AtRemove                      (* [os.remove(final_filename)] *)
| AtRename.                     (* [os.rename(temp_filename, final_filename)] *)

Inductive io_op : Type :=
| IoExists (p : string)
| IoOpenRead (p : string)
| IoRead (p : string)
| IoOpenWrite (p : string)
| IoWrite (p : string)
| IoRemove (p : string)
| IoSleep
| IoRename (src dst : string).

(** What a run leaves in its trace, oldest first.  A file operation is
    recorded with the folder as it stood right after it. *)
Inductive event : Type :=
| EvIo (op : io_op) (after : gmap string string)
| EvGet (q : queue_name)
| EvEmpty (q : queue_name)      (* [queue.Empty] after the timeout *)
| EvPut (q : queue_name)
| EvTaskDone (q : queue_name)
| EvLogError
| EvLogDebug.

Record System : Type := {
  search_page_request_queue : Queue json;
  car_data_request_queue : Queue (string * json);
  car_data_result_queue : Queue json;
  files : gmap string string;
  trace : list event
}.

Definition with_page_queue (q : Queue json) (s : System) : System :=
  {| search_page_request_queue := q;
     car_data_request_queue := car_data_request_queue s;
     car_data_result_queue := car_data_result_queue s;
     files := files s; trace := trace s |}.

Definition with_detail_queue (q : Queue (string * json)) (s : System) : System :=
  {| search_page_request_queue := search_page_request_queue s;
     car_data_request_queue := q;
     car_data_result_queue := car_data_result_queue s;
     files := files s; trace := trace s |}.

Definition with_result_queue (q : Queue json) (s : System) : System :=
  {| search_page_request_queue := search_page_request_queue s;
     car_data_request_queue := car_data_request_queue s;
     car_data_result_queue := q;
     files := files s; trace := trace s |}.

Definition with_files (fs : gmap string string) (s : System) : System :=
  {| search_page_request_queue := search_page_request_queue s;
     car_data_request_queue := car_data_request_queue s;
     car_data_result_queue := car_data_result_queue s;
     files := fs; trace := trace s |}.

Definition log_event (e : event) (s : System) : System :=
  {| search_page_request_queue := search_page_request_queue s;
     car_data_request_queue := car_data_request_queue s;
     car_data_result_queue := car_data_result_queue s;
     files := files s; trace := trace s ++ [e] |}.

Definition record_op (op : io_op) (fs : gmap string string) (s : System) : System :=
  log_event (EvIo op fs) (with_files fs s).

(** What the outside world answers during one call: the outcome of
    [s.get(link)], [raise_for_status()] and [.json()] taken together, and
    the file operation that fails, if any. *)
Record Env : Type := {
  http_get : json -> result json;
  fault : option io_point
}.

(** ** Computations *)

(** A computation reads an environment, changes a state and may raise.
    The state a raising computation leaves behind is kept: what was queued
    or written before the exception stays so. *)
Definition Comp (R S A : Type) : Type := R -> S -> result A * S.

Definition ret {R S A} (a : A) : Comp R S A := fun _ s => (Ok a, s).
Definition raise {R S A} (e : exn) : Comp R S A := fun _ s => (Raise e, s).
Definition lift {R S A} (r : result A) : Comp R S A := fun _ s => (r, s).
Definition bind {R S A B} (m : Comp R S A) (k : A -> Comp R S B) : Comp R S B :=
  fun env s =>
    match m env s with
    | (Ok a, s') => k a env s'
    | (Raise e, s') => (Raise e, s')
    end.
(** [try: m  except ...: handler] *)
Definition try_except {R S A} (m : Comp R S A) (handler : exn -> Comp R S A)
  : Comp R S A :=
  fun env s =>
    match m env s with
    | (Ok a, s') => (Ok a, s')
    | (Raise e, s') => handler e env s'
    end.

Notation "x <- m ;; k" := (bind m (fun x => k))
  (at level 100, m at next level, right associativity).
Notation "m ;;; k" := (bind m (fun _ => k))
  (at level 100, right associativity).

(** The scraper's computations: over the shared system. *)
Abbreviation Prog := (Comp Env System).

Definition logger_debug : Prog unit := fun _ s => (Ok tt, log_event EvLogDebug s).
Definition logger_error : Prog unit := fun _ s => (Ok tt, log_event EvLogError s).

(** *** File operations *)

Definition os_path_exists (p : string) : Prog bool :=
  fun _ s => (Ok (bool_decide (is_Some (files s !! p))), record_op (IoExists p) (files s) s).

Definition open_read (p : string) : Prog unit :=
  fun env s =>
    let s' := record_op (IoOpenRead p) (files s) s in
    match fault env, files s !! p with
    | Some AtOpenRead, _ => (Raise OSError, s')
    | _, None => (Raise OSError, s')
    | _, Some _ => (Ok tt, s')
    end.

Definition read_text (p : string) : Prog string :=
  fun env s =>
    let s' := record_op (IoRead p) (files s) s in
    match fault env, files s !! p with
    | Some AtRead, _ => (Raise OSError, s')
    | _, None => (Raise OSError, s')
    | Some AtDecode, Some _ => (Raise UnicodeDecodeError, s')
    | _, Some text => (Ok text, s')
    end.

(** [open(p, 'w')] truncates or creates the file. *)
Definition open_write (p : string) : Prog unit :=
  fun env s =>
    match fault env with
    | Some AtOpenWrite => (Raise OSError, record_op (IoOpenWrite p) (files s) s)
    | _ => (Ok tt, record_op (IoOpenWrite p) (<[p := ""]> (files s)) s)
    end.

Definition take_string (n : nat) (text : string) : string :=
  string_of_list_ascii (take n (list_ascii_of_string text)).

(** Writing [text]; a fault leaves a prefix of it in the file. *)
Definition write_text (p text : string) : Prog unit :=
  fun env s =>
    match fault env with
    | Some (AtWrite n) =>
        (Raise OSError, record_op (IoWrite p) (<[p := take_string n text]> (files s)) s)
    | _ => (Ok tt, record_op (IoWrite p) (<[p := text]> (files s)) s)
    end.

Definition os_remove (p : string) : Prog unit :=
  fun env s =>
    match fault env, files s !! p with
    | Some AtRemove, _ => (Raise OSError, record_op (IoRemove p) (files s) s)
    | _, None => (Raise OSError, record_op (IoRemove p) (files s) s)
    | _, Some _ => (Ok tt, record_op (IoRemove p) (delete p (files s)) s)
    end.

Definition time_sleep : Prog unit :=
  fun _ s => (Ok tt, record_op IoSleep (files s) s).

Definition os_rename (src dst : string) : Prog unit :=
  fun env s =>
    match fault env, files s !! src with
    | Some AtRename, _ => (Raise OSError, record_op (IoRename src dst) (files s) s)
    | _, None => (Raise OSError, record_op (IoRename src dst) (files s) s)
    | _, Some text =>
        (Ok tt, record_op (IoRename src dst) (<[dst := text]> (delete src (files s))) s)
    end.

(** *** Queue operations *)

Definition put_page (link : json) : Prog unit :=
  fun _ s =>
    (Ok tt, log_event (EvPut PageQueue)
              (with_page_queue (put link (search_page_request_queue s)) s)).

Definition put_detail (request : string * json) : Prog unit :=
  fun _ s =>
    (Ok tt, log_event (EvPut DetailQueue)
              (with_detail_queue (put request (car_data_request_queue s)) s)).

Definition put_result (record : json) : Prog unit :=
  fun _ s =>
    (Ok tt, log_event (EvPut ResultQueue)
              (with_result_queue (put record (car_data_result_queue s)) s)).

Definition task_done_page : Prog unit :=
  fun _ s =>
    match task_done (search_page_request_queue s) with
    | Ok q => (Ok tt, log_event (EvTaskDone PageQueue) (with_page_queue q s))
    | Raise e => (Raise e, s)
    end.

Definition task_done_detail : Prog unit :=
  fun _ s =>
    match task_done (car_data_request_queue s) with
    | Ok q => (Ok tt, log_event (EvTaskDone DetailQueue) (with_detail_queue q s))
    | Raise e => (Raise e, s)
    end.

Definition task_done_result : Prog unit :=
  fun _ s =>
    match task_done (car_data_result_queue s) with
    | Ok q => (Ok tt, log_event (EvTaskDone ResultQueue) (with_result_queue q s))
    | Raise e => (Raise e, s)
    end.

Definition requests_get (link : json) : Prog json :=
  fun env s => (http_get env link, s).

(** How one turn of a worker's [while True] loop ends: the [get] blocks
    on an empty queue, the turn runs to its end, or an exception no
    [except] clause catches ends the thread. *)
Inductive outcome (S : Type) : Type :=
| Blocked
| Finished (s : S)
| Died (e : exn) (s : System).
Arguments Blocked {S}.
Arguments Finished {S} s.
Arguments Died {S} e s.

(** ** [scraper.py]: the data classes *)

Module SearchPageLinks.
Record t : Type := {
  self : json;
  first : json;
  next : json;
  prev : json;
  last : json
}.
End SearchPageLinks.

Module SearchPageResponse.
Record t : Type := {
  links : SearchPageLinks.t;
  data : json;
  current_page : json;
  total_pages : json
}.
End SearchPageResponse.

Definition link_fields : list string := ["self"; "first"; "next"; "prev"; "last"].

Definition is_link_field (k : string) : bool :=
  existsb (String.eqb k) link_fields.

(** The constructor [SearchPageLinks] called on the unpacked mapping [d]:
    [d] must be a mapping whose keys are all fields; a missing field takes
    its default, the empty string. *)
Definition new_search_page_links (d : json) : result SearchPageLinks.t :=
  match d with
  | JDict kvs =>
      if forallb (fun kv => is_link_field (fst kv)) kvs then
        let field k := default (JStr "") (dict_get k kvs) in
        Ok {| SearchPageLinks.self := field "self";
              SearchPageLinks.first := field "first";
              SearchPageLinks.next := field "next";
              SearchPageLinks.prev := field "prev";
              SearchPageLinks.last := field "last" |}
      else Raise TypeError
  | _ => Raise TypeError
  end.

Definition new_search_page_response (search_page_response : json)
  : result SearchPageResponse.t :=
  do d <- getitem search_page_response "links";
  do links <- new_search_page_links d;
  do data <- getitem search_page_response "data";
  do meta <- getitem search_page_response "meta";
  do current_page <- getitem meta "currentPage";
  do meta' <- getitem search_page_response "meta";
  do total_pages <- getitem meta' "totalPages";
  Ok {| SearchPageResponse.links := links;
        SearchPageResponse.data := data;
        SearchPageResponse.current_page := current_page;
        SearchPageResponse.total_pages := total_pages |}.

Section Scraper.
Context `{External}.

(** The body of the generator [get_car_data] for one listing: what it
    yields, or the exception the lookups raise. *)
Definition get_car_data_yield (listing : json) : result (string * json) :=
  do car_attrs <- getitem listing "attributes";
  do code <- getitem car_attrs "code";
  do year <- getitem car_attrs "year";
  Ok (CAR_DATA_LINK +:+ "/" +:+ py_format code +:+ "/" +:+ py_format year, car_attrs).

(** ** [scraper.py]: loading and saving the store *)

Definition load_existing_data (filename prefix : string) : Prog json :=
  let path := os_path_join RESULT_FOLDER_PATH filename in
  present <- os_path_exists path ;;
  if negb present then ret (JList [])
  else
    try_except
      (open_read path ;;;
       text <- read_text path ;;
       match json_load text with
       | Some v => ret v
       | None => raise JSONDecodeError
       end)
      (fun e =>
         match e with
         | JSONDecodeError => logger_error ;;; ret (JList [])
         | _ => raise e
         end).

(** [existing_data.extend(batch)]: only a list has [extend]. *)
Definition list_extend (existing_data : json) (batch : list json)
  : result (list json) :=
  match existing_data with
  | JList xs => Ok (xs ++ batch)
  | _ => Raise AttributeError
  end.

Definition save_batch_to_file (filename : string) (batch : list json)
  (prefix : string) : Prog bool :=
  try_except
    (existing_data <- load_existing_data filename prefix ;;
     merged <- lift (list_extend existing_data batch) ;;
     let temp_filename := os_path_join RESULT_FOLDER_PATH ("_" +:+ filename) in
     let final_filename := os_path_join RESULT_FOLDER_PATH filename in
     open_write temp_filename ;;;
     write_text temp_filename (json_dump (JList merged)) ;;;
     logger_debug ;;;
     present <- os_path_exists final_filename ;;
     (if present then os_remove final_filename else ret tt) ;;;
     time_sleep ;;;
     os_rename temp_filename final_filename ;;;
     ret true)
    (fun e => logger_error ;;; ret false).

(** [process_batch] clears the caller's list in place; the computation
    returns the contents of that list after the call. *)
Definition process_batch (batch : list json) (filename prefix : string)
  : Prog (list json) :=
  match batch with
  | [] => ret batch
  | _ :: _ =>
      saved <- save_batch_to_file filename batch prefix ;;
      if saved then ret [] else ret batch
  end.

(** ** [scraper.py]: the workers *)

(** The [for car_data_link, attrs in response.get_car_data()] loop.  The
    generator runs one listing at a time, so the requests yielded before a
    listing that raises are already queued. *)
Fixpoint put_car_data (listings : list json) : Prog unit :=
  match listings with
  | [] => ret tt
  | listing :: rest =>
      request <- lift (get_car_data_yield listing) ;;
      put_detail request ;;;
      put_car_data rest
  end.

(** The text of [_i]: both page numbers are formatted with [<5]. *)
Definition format_progress (response : SearchPageResponse.t) : result unit :=
  if (accepts_format_spec (SearchPageResponse.current_page response)
      && accepts_format_spec (SearchPageResponse.total_pages response))%bool
  then Ok tt else Raise TypeError.

(** The [try] block of [search_page_worker]. *)
Definition search_page_work (link : json) : Prog unit :=
  result <- requests_get link ;;
  response <- lift (new_search_page_response result) ;;
  listings <- lift (py_iter (SearchPageResponse.data response)) ;;
  put_car_data listings ;;;
  put_page (SearchPageLinks.next (SearchPageResponse.links response)) ;;;
  lift (format_progress response).

Definition run_turn {A} (m : Prog A) (env : Env) (s : System) : outcome System :=
  match m env s with
  | (Ok _, s') => Finished s'
  | (Raise e, s') => Died e s'
  end.

(** One turn of the loop of [search_page_worker]. *)
Definition search_page_worker (env : Env) (s : System) : outcome System :=
  match get (search_page_request_queue s) with
  | None => Blocked
  | Some (link, q) =>
      run_turn
        (try_except (search_page_work link) (fun e => logger_error) ;;;
         logger_debug ;;;
         task_done_page)
        env (log_event (EvGet PageQueue) (with_page_queue q s))
  end.

(** The [try] block of [car_data_worker]. *)
Definition car_data_work (link : string) (car_attrs : json) : Prog unit :=
  result <- requests_get (JStr link) ;;
  data <- lift (getitem result "data") ;;
  car_specs <- lift (getitem_idx data 0) ;;
  put_result (JDict [("car_attrs", car_attrs); ("car_specs", car_specs)]).

(** One turn of the loop of [car_data_worker]. *)
Definition car_data_worker (env : Env) (s : System) : outcome System :=
  match get (car_data_request_queue s) with
  | None => Blocked
  | Some ((link, car_attrs), q) =>
      run_turn
        (try_except (car_data_work link car_attrs) (fun e => logger_error) ;;;
         logger_debug ;;;
         task_done_detail)
        env (log_event (EvGet DetailQueue) (with_detail_queue q s))
  end.

(** The local variables of [save_car_data_worker]. *)
Record Persister : Type := {
  batch : list json;
  last_save_time : Q
}.

(** [len(batch) >= BATCH_SIZE or (time.time() - last_save_time) >= TIMEOUT_SECONDS] *)
Definition flush_due (batch : list json) (now last_save_time : Q) : bool :=
  ((BATCH_SIZE <=? Z.of_nat (length batch))%Z
   || Qle_bool TIMEOUT_SECONDS (now - last_save_time))%bool.

(** The [try] block of [save_car_data_worker] once [get] has returned
    [data]; [now] is the clock read by the test and [saved_at] the clock
    read after [process_batch]. *)
Definition accept_result (_p : string) (now saved_at : Q) (p : Persister)
  (data : json) : Prog Persister :=
  let batch1 := batch p ++ [data] in
  p' <- (if flush_due batch1 now (last_save_time p) then
           batch2 <- process_batch batch1 FILENAME _p ;;
           ret {| batch := batch2; last_save_time := saved_at |}
         else ret {| batch := batch1; last_save_time := last_save_time p |}) ;;
  task_done_result ;;;
  ret p'.

(** The [except queue.Empty] block. *)
Definition on_timeout (_p : string) (saved_at : Q) (p : Persister) : Prog Persister :=
  batch' <- process_batch (batch p) FILENAME _p ;;
  ret {| batch := batch'; last_save_time := saved_at |}.

Definition run_persister_turn (m : Prog Persister) (env : Env) (s : System)
  : outcome (Persister * System) :=
  match m env s with
  | (Ok p', s') => Finished (p', s')
  | (Raise e, s') => Died e s'
  end.

(** One turn of the loop of [save_car_data_worker]: [get] returns a queued
    record, or raises [queue.Empty] when the queue stayed empty for
    [TIMEOUT_SECONDS]. *)
Definition save_car_data_worker (_p : string) (now saved_at : Q) (env : Env)
  (p : Persister) (s : System) : outcome (Persister * System) :=
  match get (car_data_result_queue s) with
  | Some (data, q) =>
      run_persister_turn (accept_result _p now saved_at p data) env
        (log_event (EvGet ResultQueue) (with_result_queue q s))
  | None =>
      run_persister_turn (on_timeout _p saved_at p) env
        (log_event (EvEmpty ResultQueue) s)
  end.

End Scraper.

(** ** The store file *)

Section Paths.
Context `{External}.

Definition final_filename (filename : string) : string :=
  os_path_join RESULT_FOLDER_PATH filename.

Definition temp_filename (filename : string) : string :=
  os_path_join RESULT_FOLDER_PATH ("_" +:+ filename).

(** How the spec reads the store a flush finds: a missing file is an empty
    store, a file that is not JSON is an empty store, and a file holding a
    JSON list is that list. *)
Inductive store_reads_as : option string -> list json -> Prop :=
| missing_store : store_reads_as None []
| unparsable_store (text : string) :
    json_load text = None -> store_reads_as (Some text) []
| list_store (text : string) (xs : list json) :
    json_load text = Some (JList xs) -> store_reads_as (Some text) xs.

(** What the final path may hold while a flush of [batch] runs over a
    folder whose final path held [old]: the old store, no file, or the
    complete text of a merged store ending in the batch. *)
Definition whole_store (old : option string) (batch : list json)
  (now : option string) : Prop :=
  now = old \/ now = None \/
  exists existing, now = Some (json_dump (JList (existing ++ batch))).

End Paths.

(** ** Reading a trace *)

Definition is_io (e : event) : bool :=
  match e with
  | EvIo _ _ => true
  | _ => false
  end.

Definition is_queue_event (e : event) : bool :=
  match e with
  | EvGet _ | EvEmpty _ | EvPut _ | EvTaskDone _ => true
  | _ => false
  end.

Definition same_queue (a b : queue_name) : bool :=
  match a, b with
  | PageQueue, PageQueue | DetailQueue, DetailQueue | ResultQueue, ResultQueue => true
  | _, _ => false
  end.

Definition is_get (q : queue_name) (e : event) : bool :=
  match e with
  | EvGet q' => same_queue q q'
  | _ => false
  end.

Definition is_put (q : queue_name) (e : event) : bool :=
  match e with
  | EvPut q' => same_queue q q'
  | _ => false
  end.

Definition is_task_done (q : queue_name) (e : event) : bool :=
  match e with
  | EvTaskDone q' => same_queue q q'
  | _ => false
  end.

(** What a [try] block of a worker may leave in the trace: queued work
    and log lines. *)
Definition is_put_or_log (e : event) : bool :=
  match e with
  | EvPut _ | EvLogError | EvLogDebug => true
  | _ => false
  end.

(** The same, when only the result queue is fed. *)
Definition is_result_or_log (e : event) : bool :=
  match e with
  | EvPut ResultQueue | EvLogError | EvLogDebug => true
  | _ => false
  end.

(** [unfinished_tasks] of the queue named [q]. *)
Definition pending (q : queue_name) (s : System) : Z :=
  match q with
  | PageQueue => unfinished_tasks (search_page_request_queue s)
  | DetailQueue => unfinished_tasks (car_data_request_queue s)
  | ResultQueue => unfinished_tasks (car_data_result_queue s)
  end.

(** How many events of a trace satisfy [f]. *)
Fixpoint count (f : event -> bool) (evs : list event) : nat :=
  match evs with
  | [] => 0
  | e :: rest => ((if f e then 1 else 0) + count f rest)%nat
  end.

(** A computation whose every event satisfies [ok], that never raises the
    count of unfinished tasks except by a [put], and that leaves the folder
    alone. *)
Definition emits {A} (ok : event -> bool) (m : Prog A) : Prop :=
  forall env s, exists r s' evs,
    m env s = (r, s') /\
    trace s' = trace s ++ evs /\
    Forall (fun e => ok e = true) evs /\
    (forall q, pending q s' = pending q s + Z.of_nat (count (is_put q) evs)) /\
    files s' = files s.

(** ** A small instance for the examples *)

Definition quote : string := String (ascii_of_nat 34) EmptyString.

Definition comma_join (parts : list string) : string :=
  match parts with
  | [] => ""
  | p :: rest => fold_left (fun acc x => acc +:+ "," +:+ x) rest p
  end.

(** A compact JSON writer. *)
Fixpoint compact_dump (v : json) : string :=
  match v with
  | JNull => "null"
  | JBool true => "true"
  | JBool false => "false"
  | JNum n => pretty n
  | JStr s => quote +:+ s +:+ quote
  | JList xs => "[" +:+ comma_join (map compact_dump xs) +:+ "]"
  | JDict kvs =>
      "{" +:+ comma_join
                (map (fun kv => quote +:+ fst kv +:+ quote +:+ ":" +:+ compact_dump (snd kv)) kvs)
          +:+ "}"
  end.

Definition sample_attrs : json :=
  JDict [("code", JStr "ABC"); ("year", JNum 2020)].

Definition sample_specs : json :=
  JDict [("specs", JList [JDict [("title", JStr "Engine");
                                 ("attrs", JList [JDict [("label", JStr "Power");
                                                         ("value", JStr "100kW")]])]])].

Definition sample_record : json :=
  JDict [("car_attrs", sample_attrs); ("car_specs", sample_specs)].

(** The documents the sample reader recognises. *)
Definition sample_documents : list json :=
  [JList []; JList [sample_record]; JList [sample_record; sample_record]; JDict []].

Definition sample_external : External :=
  {| RESULT_FOLDER_PATH := "runs";
     FILENAME := "cars.json";
     json_dump := compact_dump;
     json_load := fun text =>
       find (fun v => String.eqb (compact_dump v) text) sample_documents;
     py_format := fun v =>
       match v with
       | JStr s => s
       | _ => compact_dump v
       end |}.

Definition empty_queue {A} : Queue A := {| items := []; unfinished_tasks := 0 |}.

Definition sample_system (fs : gmap string string) : System :=
  {| search_page_request_queue := empty_queue;
     car_data_request_queue := empty_queue;
     car_data_result_queue := empty_queue;
     files := fs; trace := [] |}.

Definition sample_env (ft : option io_point) : Env :=
  {| http_get := fun _ => Raise RequestException; fault := ft |}.

(** A folder whose store holds one record. *)
Definition stored_once : gmap string string :=
  {[ "runs/cars.json" := compact_dump (JList [sample_record]) ]}.

Definition sample_listing (code : string) : json :=
  JDict [("attributes", JDict [("code", JStr code); ("year", JNum 2020)])].

(** The last page of a search: two listings and an empty [next] link. *)
Definition sample_last_page : json :=
  JDict [("links", JDict [("self", JStr "https://page/3"); ("next", JStr "")]);
         ("data", JList [sample_listing "ABC"; sample_listing "XYZ"]);
         ("meta", JDict [("currentPage", JNum 3); ("totalPages", JNum 3)])].

Definition sample_detail : json :=
  JDict [("data", JList [sample_specs; JStr "ignored"])].

(** A server that knows one page and one detail resource. *)
Definition sample_server (link : json) : result json :=
  match link with
  | JStr url =>
      if String.eqb url "https://page/3" then Ok sample_last_page
      else if String.eqb url "https://detail/ABC" then Ok sample_detail
      else if String.eqb url "https://detail/none" then Ok (JDict [("data", JList [])])
      else Raise RequestException
  | _ => Raise RequestException
  end.

Definition sample_online : Env := {| http_get := sample_server; fault := None |}.

Definition one_item {A} (x : A) : Queue A := {| items := [x]; unfinished_tasks := 1 |}.

Definition page_pending : System :=
  with_page_queue (one_item (JStr "https://page/3")) (sample_system ∅).

Definition detail_pending (url : string) : System :=
  with_detail_queue (one_item (url, sample_attrs)) (sample_system ∅).

Definition result_pending : System :=
  with_result_queue (one_item sample_record) (sample_system ∅).

(** A persister one record short of [BATCH_SIZE], and one holding a single
    record. *)
Definition nearly_full : Persister :=
  {| batch := repeat sample_record (Z.to_nat (BATCH_SIZE - 1)); last_save_time := 0 |}.

Definition one_waiting : Persister :=
  {| batch := [sample_record]; last_save_time := 0 |}.

(** ** [parser.py] *)

Module Parser.

(** Python objects live in a heap, so that two names for one dictionary
    see each other's writes.  An address is an index into the heap; a
    value is immediate or the address of a list or a dictionary. *)
Inductive value : Type :=
| VNone
| VBool (b : bool)
| VInt (n : Z)
| VStr (s : string)
| VRef (l : nat).

Inductive object : Type :=
| OList (xs : list value)
| ODict (kvs : list (string * value)).

Abbreviation heap := (list object).

(** Computations over the heap. *)
Abbreviation Py := (Comp unit heap).

Definition alloc (o : object) : Py value :=
  fun _ h => (Ok (VRef (length h)), h ++ [o]).

(** [v[k]] *)
Definition subscript (v : value) (k : string) : Py value :=
  fun _ h =>
    match v with
    | VRef l =>
        match h !! l with
        | Some (ODict kvs) =>
            match dict_get k kvs with
            | Some x => (Ok x, h)
            | None => (Raise KeyError, h)
            end
        | _ => (Raise TypeError, h)
        end
    | _ => (Raise TypeError, h)
    end.

(** [v[k] = x] *)
Definition store_item (v : value) (k : string) (x : value) : Py unit :=
  fun _ h =>
    match v with
    | VRef l =>
        match h !! l with
        | Some (ODict kvs) => (Ok tt, <[l := ODict (dict_set k x kvs)]> h)
        | _ => (Raise TypeError, h)
        end
    | _ => (Raise TypeError, h)
    end.

Fixpoint str_chars (s : string) : list value :=
  match s with
  | EmptyString => []
  | String c rest => VStr (String c EmptyString) :: str_chars rest
  end.

(** The elements a [for] loop over [v] visits. *)
Definition iterate (v : value) : Py (list value) :=
  fun _ h =>
    match v with
    | VStr s => (Ok (str_chars s), h)
    | VRef l =>
        match h !! l with
        | Some (OList xs) => (Ok xs, h)
        | Some (ODict kvs) => (Ok (map (fun kv => VStr (fst kv)) kvs), h)
        | None => (Raise TypeError, h)
        end
    | _ => (Raise TypeError, h)
    end.

(** [sep.join(parts)]: every part must be a string. *)
Fixpoint join (sep : string) (parts : list value) : result string :=
  match parts with
  | [] => Ok ""
  | VStr s :: [] => Ok s
  | VStr s :: rest => do tail <- join sep rest; Ok (s +:+ sep +:+ tail)
  | _ :: _ => Raise TypeError
  end.

(** [v.pop(k)] *)
Definition dict_pop (v : value) (k : string) : Py value :=
  fun _ h =>
    match v with
    | VRef l =>
        match h !! l with
        | Some (ODict kvs) =>
            match dict_get k kvs with
            | Some x => (Ok x, <[l := ODict (dict_del k kvs)]> h)
            | None => (Raise KeyError, h)
            end
        | _ => (Raise TypeError, h)
        end
    | _ => (Raise AttributeError, h)
    end.

(** [v.items()] *)
Definition dict_items (v : value) : Py (list (string * value)) :=
  fun _ h =>
    match v with
    | VRef l =>
        match h !! l with
        | Some (ODict kvs) => (Ok kvs, h)
        | _ => (Raise AttributeError, h)
        end
    | _ => (Raise AttributeError, h)
    end.

Fixpoint for_each {A} (xs : list A) (body : A -> Py unit) : Py unit :=
  match xs with
  | [] => ret tt
  | x :: rest => body x ;;; for_each rest body
  end.

(** [v.update(d)] for the items of [d]. *)
Definition dict_update (v : value) (kvs : list (string * value)) : Py unit :=
  for_each kvs (fun kv => store_item v (fst kv) (snd kv)).

Definition lower_ascii (c : ascii) : ascii :=
  let n := nat_of_ascii c in
  if ((65 <=? n) && (n <=? 90))%nat then ascii_of_nat (n + 32) else c.

Fixpoint map_string (f : ascii -> ascii) (s : string) : string :=
  match s with
  | EmptyString => EmptyString
  | String c rest => String (f c) (map_string f rest)
  end.

(** [s.replace(" ", "_").lower()] (lower-casing of ASCII letters); anything
    but a string has no [replace]. *)
Definition snake (v : value) : result string :=
  match v with
  | VStr s =>
      Ok (map_string lower_ascii
            (map_string (fun c => if Ascii.eqb c " "%char then "_"%char else c) s))
  | _ => Raise AttributeError
  end.

(** The dictionary built by the comprehension over [image.items()]. *)
Definition image_entries (items : list (string * value)) : list (string * value) :=
  fold_left (fun acc kv => dict_set ("image_" +:+ fst kv) (snd kv) acc) items [].

(** [{**a, **b}] *)
Definition merge (a b : list (string * value)) : list (string * value) :=
  fold_left (fun acc kv => dict_set (fst kv) (snd kv) acc) b a.

Definition flatten_car_data (car_data : value) : Py value :=
  car_attrs <- subscript car_data "car_attrs" ;;
  car_specs <- subscript car_data "car_specs" ;;
  seller_types <- subscript car_attrs "seller_types" ;;
  parts <- iterate seller_types ;;
  joined <- lift (join "," parts) ;;
  store_item car_attrs "seller_types" (VStr joined) ;;;
  image <- dict_pop car_attrs "image" ;;
  items <- dict_items image ;;
  dict_update car_attrs (image_entries items) ;;;
  new_car_spec <- alloc (ODict []) ;;
  spec_dicts <- iterate car_specs ;;
  for_each spec_dicts (fun spec_dict =>
    title <- subscript spec_dict "title" ;;
    spec_name <- lift (snake title) ;;
    attrs <- subscript spec_dict "attrs" ;;
    spec_items <- iterate attrs ;;
    for_each spec_items (fun spec_item =>
      label <- subscript spec_item "label" ;;
      label' <- lift (snake label) ;;
      value <- subscript spec_item "value" ;;
      store_item new_car_spec (spec_name +:+ "_" +:+ label') value)) ;;;
  flat_attrs <- dict_items car_attrs ;;
  flat_specs <- dict_items new_car_spec ;;
  alloc (ODict (merge flat_attrs flat_specs)).

(** The heap [json.load] builds for a document: one object per list and
    per dictionary, children first. *)
Fixpoint load_json (v : json) (h : heap) : value * heap :=
  match v with
  | JNull => (VNone, h)
  | JBool b => (VBool b, h)
  | JNum n => (VInt n, h)
  | JStr s => (VStr s, h)
  | JList xs =>
      let '(vs, h') :=
        fold_left (fun acc x => let '(v', h1) := load_json x (snd acc) in
                                (fst acc ++ [v'], h1)) xs ([], h) in
      (VRef (length h'), h' ++ [OList vs])
  | JDict kvs =>
      let '(vs, h') :=
        fold_left (fun acc kv => let '(v', h1) := load_json (snd kv) (snd acc) in
                                 (fst acc ++ [(fst kv, v')], h1)) kvs ([], h) in
      (VRef (length h'), h' ++ [ODict vs])
  end.

(** Reading a value back as a document, to a given depth. *)
Fixpoint to_json (depth : nat) (h : heap) (v : value) : option json :=
  match depth with
  | O => None
  | S d =>
      match v with
      | VNone => Some JNull
      | VBool b => Some (JBool b)
      | VInt n => Some (JNum n)
      | VStr s => Some (JStr s)
      | VRef l =>
          match h !! l with
          | Some (OList xs) => JList <$> mapM (to_json d h) xs
          | Some (ODict kvs) =>
              JDict <$> mapM (fun kv => pair (fst kv) <$> to_json d h (snd kv)) kvs
          | None => None
          end
      end
  end.

Definition sample_car_data : json :=
  JDict [("car_attrs",
          JDict [("code", JStr "ABC"); ("year", JNum 2020);
                 ("seller_types", JList [JStr "dealer"; JStr "private"]);
                 ("image", JDict [("url", JStr "u.jpg")])]);
         ("car_specs",
          JList [JDict [("title", JStr "Engine");
                        ("attrs", JList [JDict [("label", JStr "Power Output");
                                                ("value", JStr "100kW")]])]])].

(** The keys of [car_attrs] that [flatten_car_data] writes or removes. *)
Definition touched_key (k : string) : bool :=
  (String.eqb k "seller_types" || String.eqb k "image" || String.prefix "image_" k)%bool.

(** [o'] is [o], or both are dictionaries that agree on every key that is
    not touched. *)
Definition same_but_touched (o o' : object) : Prop :=
  o' = o \/
  exists kvs kvs',
    o = ODict kvs /\ o' = ODict kvs' /\
    forall k, touched_key k = false -> dict_get k kvs' = dict_get k kvs.

(** [h] extends [h0], and differs from it on [h0]'s addresses at most at
    [la], and there at most in the touched keys. *)
Definition framed (h0 : heap) (la : nat) (h : heap) : Prop :=
  (length h0 <= length h)%nat /\
  forall l o, h0 !! l = Some o ->
    exists o', h !! l = Some o' /\ (l <> la -> o' = o) /\ same_but_touched o o'.

(** [m] keeps the invariant [I], whether it returns or raises, and its
    result satisfies [post]. *)
Definition keeps {A} (I : heap -> Prop) (m : Py A) (post : A -> Prop) : Prop :=
  forall h, I h ->
    match m tt h with
    | (Ok a, h') => I h' /\ post a
    | (Raise _, h') => I h'
    end.

(** A write to a dictionary may go to [la] under a touched key, or to an
    address that [h0] does not have. *)
Definition may_write (h0 : heap) (la : nat) (v : value) (k : string) : Prop :=
  forall l, v = VRef l -> (l = la /\ touched_key k = true) \/ (length h0 <= l)%nat.

End Parser.

(** ** [scraper.py]: naming the run and seeding the queues *)

(** A Python [str] is a sequence of characters, each given here by its code
    point; [len] counts the characters. *)
Abbreviation pystr := (list N).

(** The [str] of a literal made of ASCII characters. *)
Definition str_of (literal : string) : pystr :=
  map N_of_ascii (list_ascii_of_string literal).

(** [s.endswith(suffix)] *)
Definition ends_with (suffix s : pystr) : bool :=
  bool_decide (suffix `suffix_of` s).

(** [get_valid_filename], on the [str] the user typed at the prompt. *)
Definition get_valid_filename (typed : pystr) : result pystr :=
  if (length typed <? 5)%nat then Raise ValueError
  else if negb (ends_with (str_of ".json") typed) then Ok (typed ++ str_of ".json")
  else Ok typed.

Definition START_URL : string :=
  "https://api.cars.co.za/fw/public/v3/vehicle?page[offset]=0&page[limit]=20&include_featured=true&sort[date]=desc".

(** [initial_data_fetch] under [@logger.catch]: an exception is logged
    and the call returns [None]. *)
Definition initial_data_fetch : Prog json :=
  try_except
    (logger_debug ;;; requests_get (JStr START_URL))
    (fun _ => logger_error ;;; ret JNull).

(** What a queue named [q] holds, and what [join] waits for. *)
Definition backlog (q : queue_name) (s : System) : Z :=
  match q with
  | PageQueue => Z.of_nat (length (items (search_page_request_queue s)))
  | DetailQueue => Z.of_nat (length (items (car_data_request_queue s)))
  | ResultQueue => Z.of_nat (length (items (car_data_result_queue s)))
  end.

(** The items taken from [q] and not yet marked done. *)
Definition in_flight (q : queue_name) (s : System) : Z :=
  pending q s - backlog q s.

(** [join_all] returns once each queue's [unfinished_tasks] is zero. *)
Definition join_all_returns (s : System) : Prop :=
  pending PageQueue s = 0 /\ pending DetailQueue s = 0 /\ pending ResultQueue s = 0.

(** A computation that leaves, for every queue, the number of items in
    flight as it found it. *)
Definition balanced {A} (m : Prog A) : Prop :=
  forall env s q, in_flight q (snd (m env s)) = in_flight q s.

(** What the page worker needs from a link before it queues anything:
    the fetch, the parse of the page and the iteration over [data]. *)
Definition page_listings (env : Env) (link : json)
  : result (SearchPageResponse.t * list json) :=
  do result <- http_get env link;
  do response <- new_search_page_response result;
  do listings <- py_iter (SearchPageResponse.data response);
  Ok (response, listings).

(** What the detail worker needs from a request before it emits a record. *)
Definition detail_payload (env : Env) (link : string) : result json :=
  do result <- http_get env (JStr link);
  do data <- getitem result "data";
  getitem_idx data 0.

Section Main.
Context `{External}.

(** The lines of [__main__] between [start_workers()] and [join_all()]:
    the first page is fetched and its requests and [next] link are
    queued, outside any [try]. *)
Definition seed_queues : Prog unit :=
  fetched <- initial_data_fetch ;;
  initial_response <- lift (new_search_page_response fetched) ;;
  listings <- lift (py_iter (SearchPageResponse.data initial_response)) ;;
  put_car_data listings ;;;
  put_page (SearchPageLinks.next (SearchPageResponse.links initial_response)).

End Main.

(** ** [parser.py]: the record [flatten_car_data] expects *)

(** A dictionary's entry under [k], and the elements of a list, as the
    heap [h] has them. *)
Definition read_field (h : Parser.heap) (v : Parser.value) (k : string)
  : option Parser.value :=
  match v with
  | Parser.VRef l =>
      match h !! l with
      | Some (Parser.ODict kvs) => dict_get k kvs
      | _ => None
      end
  | _ => None
  end.

Definition read_list (h : Parser.heap) (v : Parser.value) : option (list Parser.value) :=
  match v with
  | Parser.VRef l =>
      match h !! l with
      | Some (Parser.OList xs) => Some xs
      | _ => None
      end
  | _ => None
  end.

(** A spec item [{"label": <string>, "value": ...}]. *)
Definition read_item (h : Parser.heap) (v : Parser.value)
  : option (string * Parser.value) :=
  match read_field h v "label", read_field h v "value" with
  | Some (Parser.VStr label), Some x => Some (label, x)
  | _, _ => None
  end.

(** A spec group [{"title": <string>, "attrs": [<item>, ...]}]. *)
Definition read_group (h : Parser.heap) (v : Parser.value)
  : option (string * list (string * Parser.value)) :=
  match read_field h v "title", read_field h v "attrs" with
  | Some (Parser.VStr title), Some attrs =>
      item_refs ← read_list h attrs;
      items ← mapM (read_item h) item_refs;
      Some (title, items)
  | _, _ => None
  end.

(** [car_specs] as a list of spec groups. *)
Definition read_groups (h : Parser.heap) (car_specs : Parser.value)
  : option (list (string * list (string * Parser.value))) :=
  group_refs ← read_list h car_specs;
  mapM (read_group h) group_refs.

(** [s.replace(" ", "_").lower()] on a string of ASCII characters. *)
Definition snake_text (s : string) : string :=
  Parser.map_string Parser.lower_ascii
    (Parser.map_string (fun c => if Ascii.eqb c " "%char then "_"%char else c) s).

Definition is_ascii (s : string) : bool :=
  forallb (fun c => (nat_of_ascii c <? 128)%nat) (list_ascii_of_string s).

(** Every title and every label is made of ASCII characters. *)
Definition ascii_labels (groups : list (string * list (string * Parser.value))) : bool :=
  forallb (fun g => is_ascii (fst g) && forallb (fun it => is_ascii (fst it)) (snd g))
    groups.

(** The spec labels of the flattened record: one key
    [<title>_<label>] per item, in snake case, a later item replacing an
    earlier one of the same key. *)
Definition flat_specs (groups : list (string * list (string * Parser.value)))
  : list (string * Parser.value) :=
  fold_left
    (fun acc g =>
       fold_left
         (fun acc it =>
            dict_set (snake_text (fst g) +:+ "_" +:+ snake_text (fst it)) (snd it) acc)
         (snd g) acc)
    groups [].

(** The seed attributes of the flattened record: [seller_types] joined,
    [image] replaced by one [image_<k>] per entry of the image. *)
Definition flat_attrs (kvs : list (string * Parser.value)) (joined : string)
  (image : list (string * Parser.value)) : list (string * Parser.value) :=
  Parser.merge
    (dict_del "image" (dict_set "seller_types" (Parser.VStr joined) kvs))
    (Parser.image_entries image).

(** ** [parser.py]: the loops over [car_specs] *)


(** ** More samples *)

(** A page whose second listing has no [attributes]. *)
Definition sample_broken_page : json :=
  JDict [("links", JDict [("self", JStr "https://page/1"); ("next", JStr "https://page/2")]);
         ("data", JList [sample_listing "ABC"; JDict [("id", JNum 7)]; sample_listing "XYZ"]);
         ("meta", JDict [("currentPage", JNum 1); ("totalPages", JNum 3)])].

Definition sample_broken_online : Env :=
  {| http_get := fun _ => Ok sample_broken_page; fault := None |}.

(** A server whose first page is the last page of the sample. *)
Definition sample_first_online : Env :=
  {| http_get := fun _ => Ok sample_last_page; fault := None |}.

(** A folder whose store holds a JSON object. *)
Definition stored_object : gmap string string :=
  {[ "runs/cars.json" := compact_dump (JDict []) ]}.

(** A folder whose store holds the byte 255, which is not text in UTF-8. *)
Definition stored_undecodable : gmap string string :=
  {[ "runs/cars.json" := String (ascii_of_nat 255) EmptyString ]}.



(** * Properties *)

(** ** Temporary and final file *)

Lemma string_length_append (a b : string) :
  String.length (a +:+ b) = (String.length a + String.length b)%nat.
Proof. induction a as [|c a IH]; simpl; [reflexivity | now rewrite IH]. Qed.

(** The temporary file is never the final file. *)
Lemma temp_filename_fresh (folder filename : string) :
  os_path_join folder ("_" +:+ filename) <> os_path_join folder filename.
Proof.
  intros Heq. apply (f_equal String.length) in Heq. revert Heq.
  unfold os_path_join at 1. change (starts_with_sep ("_" +:+ filename)) with false.
  cbv iota. unfold os_path_join.
  destruct (starts_with_sep filename);
    destruct (String.eqb folder "" || ends_with_sep folder)%bool;
    rewrite ?string_length_append; simpl; rewrite ?string_length_append; simpl; lia.
Qed.

(** ** The store *)

Ltac unfold_io :=
  unfold save_batch_to_file, load_existing_data, try_except, bind, ret, raise, lift,
    os_path_exists, open_read, read_text, open_write, write_text, os_remove,
    time_sleep, os_rename, logger_debug, logger_error, list_extend.

(** Case analysis on what a flush meets: the fault plan, the files it
    looks up and the outcome of parsing. *)
Ltac io_case :=
  match goal with
  | |- context [fault ?e] => destruct (fault e) as [[]|] eqn:?
  | |- context [files ?s !! ?p] => destruct (files s !! p) eqn:?
  | |- context [json_load ?t] => destruct (json_load t) as [[]|] eqn:?
  end.

Ltac io_crush := repeat first [ progress cbn | progress simplify_map_eq | io_case ].


Section StoreProperties.
Context `{External}.

Ltac start_save filename :=
  pose proof (temp_filename_fresh RESULT_FOLDER_PATH filename) as Hfresh;
  unfold final_filename, temp_filename, whole_store in *;
  unfold_io;
  set (final := os_path_join RESULT_FOLDER_PATH filename) in *;
  set (temp := os_path_join RESULT_FOLDER_PATH ("_" +:+ filename)) in *.

(** [save_batch_to_file] never raises and never touches a queue; its
    first act is to look for the final file, every event it leaves is a
    file operation or a log line, and when it reports success the final
    file holds a store that ends in the batch. *)
Lemma save_batch_to_file_returns filename batch prefix env s :
  exists saved s' evs,
    save_batch_to_file filename batch prefix env s = (Ok saved, s') /\
    search_page_request_queue s' = search_page_request_queue s /\
    car_data_request_queue s' = car_data_request_queue s /\
    car_data_result_queue s' = car_data_result_queue s /\
    trace s' = trace s ++ EvIo (IoExists (final_filename filename)) (files s) :: evs /\
    Forall (fun e => is_queue_event e = false) evs /\
    (saved = true ->
     exists existing,
       files s' !! final_filename filename
       = Some (json_dump (JList (existing ++ batch)))).
Proof.
  start_save filename. io_crush.
  all: do 3 eexists; split; [reflexivity|]; cbn.
  all: do 3 (split; [reflexivity|]).
  all: split; [rewrite <- ?app_assoc; reflexivity|].
  all: split; [repeat constructor|].
  all: intros Hsaved; try discriminate Hsaved; simplify_map_eq;
    first [by exists [] | by eexists].
Qed.

(** C4 (as amended): a flush that meets no I/O fault, over a store that is
    missing, that holds text which is not JSON, or that holds a JSON list,
    reads the store (the missing file and the text that is not JSON read as
    the empty store), appends the batch and rewrites the whole store:
    afterwards the final file holds the dump of the readable contents
    followed by the batch, the temporary file is gone and no other file
    changed.  A store whose bytes do not decode as text, and a store that
    holds JSON other than a list, are not read as empty: the flush reports
    failure and leaves every file as it was. *)
Theorem flush_appends_batch_to_store filename batch prefix env s :
  (forall existing,
     fault env = None ->
     store_reads_as (files s !! final_filename filename) existing ->
     exists s',
       save_batch_to_file filename batch prefix env s = (Ok true, s') /\
       files s' =
         <[final_filename filename := json_dump (JList (existing ++ batch))]>
           (delete (temp_filename filename) (files s))) /\
  (forall text,
     files s !! final_filename filename = Some text ->
     fault env = Some AtDecode \/
     (exists v, json_load text = Some v /\ forall xs, v <> JList xs) ->
     exists s',
       save_batch_to_file filename batch prefix env s = (Ok false, s') /\
       files s' = files s).
Proof.
  split.
  - intros existing Hfault Hreads. start_save filename.
    rewrite Hfault.
    inversion Hreads as [Hold | text Hload Hold | text xs Hload Hold];
      symmetry in Hold; io_crush.
    all: eexists; split; [reflexivity|]; cbn.
    all: apply map_eq; intros p;
      destruct (decide (p = final)) as [Hp|];
        [rewrite Hp | destruct (decide (p = temp)) as [Hp|]; [rewrite Hp|]];
      simplify_map_eq; done.
  - intros text Hold [Hfault|(v & Hload & Hnolist)]; start_save filename.
    + rewrite Hfault. io_crush. eexists. split; reflexivity.
    + io_crush.
      all: try (eexists; split; reflexivity).
      all: destruct v as [| | | |xs|]; cbn; try (eexists; split; reflexivity).
      all: exfalso; exact (Hnolist xs eq_refl).
Qed.



End StoreProperties.

(** ** The persister *)

Arguments save_batch_to_file : simpl never.

Lemma count_app f evs1 evs2 :
  count f (evs1 ++ evs2) = (count f evs1 + count f evs2)%nat.
Proof. induction evs1 as [|e evs1 IH]; cbn; [reflexivity | rewrite IH; lia]. Qed.

(** A trace whose events all satisfy [ok] holds no event that [ok] rules
    out. *)
Lemma count_none (ok f : event -> bool) evs :
  (forall e, ok e = true -> f e = false) ->
  Forall (fun e => ok e = true) evs -> count f evs = 0%nat.
Proof.
  intros Hf. induction 1 as [|e evs He _ IH]; cbn; [reflexivity|].
  rewrite (Hf e He), IH. reflexivity.
Qed.

Lemma flush_events_hold_no_get q evs :
  Forall (fun e => is_queue_event e = false) evs -> count (is_get q) evs = 0%nat.
Proof.
  induction 1 as [|e evs He _ IH]; [reflexivity|].
  cbn. rewrite IH. destruct e; try reflexivity; discriminate He.
Qed.

Lemma get_keeps_unfinished_tasks {A} (q q' : Queue A) (x : A) :
  get q = Some (x, q') -> unfinished_tasks q' = unfinished_tasks q.
Proof.
  unfold get. destruct (items q); [discriminate|].
  intros [= _ <-]. reflexivity.
Qed.

Section PersisterProperties.
Context `{External}.

(** C6: when the wait on the result queue times out, the persister runs
    file operations exactly when its batch is not empty.  With an empty
    batch the turn leaves no event but the timeout itself and the folder is
    untouched; with a non-empty batch the turn is one run of
    [save_batch_to_file] on the batch. *)
Theorem timeout_flushes_nonempty_batch _p now saved_at env p s :
  get (car_data_result_queue s) = None ->
  exists p' s' evs,
    save_car_data_worker _p now saved_at env p s = Finished (p', s') /\
    trace s' = trace s ++ EvEmpty ResultQueue :: evs /\
    (existsb is_io evs = true <-> batch p <> []) /\
    (batch p = [] -> evs = [] /\ files s' = files s /\ batch p' = []) /\
    (batch p <> [] ->
     exists saved,
       save_batch_to_file FILENAME (batch p) _p env (log_event (EvEmpty ResultQueue) s)
       = (Ok saved, s') /\
       batch p' = if saved then [] else batch p).
Proof.
  intros Hget. unfold save_car_data_worker. rewrite Hget.
  unfold run_persister_turn, on_timeout, bind, process_batch.
  destruct (batch p) as [|r b] eqn:Hbatch.
  - cbn. do 2 eexists. exists []. split; [reflexivity|]. cbn.
    split; [reflexivity|].
    split; [split; [discriminate | intros Hne; now contradiction Hne]|].
    split; [auto | intros Hne; now contradiction Hne].
  - destruct (save_batch_to_file_returns FILENAME (r :: b) _p env
                (log_event (EvEmpty ResultQueue) s))
      as (saved & s' & evs & Hsave & _ & _ & _ & Htrace & _ & _).
    unfold bind. rewrite Hsave.
    exists {| batch := if saved then [] else r :: b; last_save_time := saved_at |}, s'.
    eexists. split; [destruct saved; reflexivity|].
    split; [rewrite Htrace; cbn; rewrite <- app_assoc; reflexivity|].
    split; [split; [discriminate | reflexivity]|].
    split; [discriminate|].
    intros _. exists saved. split; reflexivity.
Qed.

(** C5: when the record just taken from the result queue brings the batch
    to [BATCH_SIZE] or more, the same turn of the loop runs
    [save_batch_to_file] on the batch, whatever the clock reads, and ends
    with [task_done]: between this [get] and the end of the turn the trace
    holds the flush's file operations and no other [get]. *)
Theorem full_batch_is_flushed_at_once _p now saved_at env p s data q :
  get (car_data_result_queue s) = Some (data, q) ->
  BATCH_SIZE <= Z.of_nat (length (batch p ++ [data])) ->
  0 < unfinished_tasks (car_data_result_queue s) ->
  exists saved s1 s' evs,
    save_batch_to_file FILENAME (batch p ++ [data]) _p env
      (log_event (EvGet ResultQueue) (with_result_queue q s)) = (Ok saved, s1) /\
    save_car_data_worker _p now saved_at env p s =
      Finished ({| batch := if saved then [] else batch p ++ [data];
                   last_save_time := saved_at |}, s') /\
    files s' = files s1 /\
    trace s' = trace s ++ EvGet ResultQueue :: evs ++ [EvTaskDone ResultQueue] /\
    hd_error evs = Some (EvIo (IoExists (final_filename FILENAME)) (files s)) /\
    count (is_get ResultQueue) evs = 0%nat.
Proof.
  intros Hget Hfull Hpending.
  unfold save_car_data_worker. rewrite Hget.
  unfold run_persister_turn, accept_result, bind, flush_due.
  apply Z.leb_le in Hfull. rewrite Hfull. cbn [orb].
  unfold process_batch.
  destruct (batch p ++ [data]) as [|r b] eqn:Hbatch; [now destruct (batch p)|].
  destruct (save_batch_to_file_returns FILENAME (r :: b) _p env
              (log_event (EvGet ResultQueue) (with_result_queue q s)))
    as (saved & s1 & evs & Hsave & _ & _ & Hq & Htrace & Hquiet & _).
  unfold bind. rewrite Hsave.
  assert (Hdone : exists q', task_done (car_data_result_queue s1) = Ok q').
  { rewrite Hq. cbn. unfold task_done.
    rewrite (get_keeps_unfinished_tasks _ _ _ Hget).
    destruct (Z.ltb_spec (unfinished_tasks (car_data_result_queue s) - 1) 0);
      [lia | eauto]. }
  destruct Hdone as [q' Hdone].
  exists saved, s1, (log_event (EvTaskDone ResultQueue) (with_result_queue q' s1)),
    (EvIo (IoExists (final_filename FILENAME)) (files s) :: evs).
  split; [reflexivity|].
  split; [destruct saved; cbn; unfold task_done_result; rewrite Hdone; reflexivity|].
  cbn. split; [reflexivity|].
  split; [rewrite Htrace; cbn; rewrite <- !app_assoc; reflexivity|].
  split; [reflexivity|].
  cbn. apply flush_events_hold_no_get. exact Hquiet.
Qed.

End PersisterProperties.

(** ** The fetching workers *)

Lemma emits_lift {A} ok (r : result A) : emits ok (lift r).
Proof.
  intros env s. exists r, s, []. rewrite app_nil_r.
  repeat split; auto. intros q. cbn. lia.
Qed.

Lemma emits_ret {A} ok (a : A) : emits ok (ret a).
Proof. apply (emits_lift ok (Ok a)). Qed.

Lemma emits_requests_get ok link : emits ok (requests_get link).
Proof.
  intros env s. exists (http_get env link), s, []. rewrite app_nil_r.
  repeat split; auto. intros q. cbn. lia.
Qed.

Lemma emits_bind {A B} ok (m : Prog A) (k : A -> Prog B) :
  emits ok m -> (forall a, emits ok (k a)) -> emits ok (bind m k).
Proof.
  intros Hm Hk env s.
  destruct (Hm env s) as (r & s1 & evs1 & Hrun & Htr & Hev & Hpend & Hfiles).
  unfold bind. rewrite Hrun. destruct r as [a|e].
  - destruct (Hk a env s1) as (r2 & s2 & evs2 & Hrun2 & Htr2 & Hev2 & Hpend2 & Hfiles2).
    exists r2, s2, (evs1 ++ evs2). split; [exact Hrun2|].
    split; [rewrite Htr2, Htr, app_assoc; reflexivity|].
    split; [apply Forall_app; auto|].
    split; [|congruence].
    intros q. rewrite Hpend2, Hpend, count_app. lia.
  - exists (Raise e), s1, evs1. auto.
Qed.

Lemma emits_try_except {A} ok (m : Prog A) (handler : exn -> Prog A) :
  emits ok m -> (forall e, emits ok (handler e)) -> emits ok (try_except m handler).
Proof.
  intros Hm Hh env s.
  destruct (Hm env s) as (r & s1 & evs1 & Hrun & Htr & Hev & Hpend & Hfiles).
  unfold try_except. rewrite Hrun. destruct r as [a|e].
  - exists (Ok a), s1, evs1. auto.
  - destruct (Hh e env s1) as (r2 & s2 & evs2 & Hrun2 & Htr2 & Hev2 & Hpend2 & Hfiles2).
    exists r2, s2, (evs1 ++ evs2). split; [exact Hrun2|].
    split; [rewrite Htr2, Htr, app_assoc; reflexivity|].
    split; [apply Forall_app; auto|].
    split; [|congruence].
    intros q. rewrite Hpend2, Hpend, count_app. lia.
Qed.

Ltac emits_op :=
  intros env s; do 3 eexists; split; [reflexivity|]; cbn;
  split; [reflexivity|]; split; [repeat constructor|];
  split; [intros []; cbn; lia | reflexivity].

Lemma emits_put_page link : emits is_put_or_log (put_page link).
Proof. emits_op. Qed.

Lemma emits_put_detail request : emits is_put_or_log (put_detail request).
Proof. emits_op. Qed.

Lemma emits_put_result record : emits is_result_or_log (put_result record).
Proof. emits_op. Qed.

Lemma emits_logger_error_any : emits is_put_or_log logger_error.
Proof. emits_op. Qed.

Lemma emits_logger_debug_any : emits is_put_or_log logger_debug.
Proof. emits_op. Qed.

Lemma emits_logger_error_result : emits is_result_or_log logger_error.
Proof. emits_op. Qed.

Lemma emits_logger_debug_result : emits is_result_or_log logger_debug.
Proof. emits_op. Qed.

Create HintDb emits.
#[export] Hint Resolve emits_lift emits_ret emits_requests_get emits_put_page
  emits_put_detail emits_put_result emits_logger_error_any emits_logger_debug_any
  emits_logger_error_result emits_logger_debug_result : emits.

(** A [try] block followed by its [except Exception] handler never
    raises. *)
Lemma try_except_catches_all {A} (m handler : Prog A) env s :
  (forall env s, exists a s', handler env s = (Ok a, s')) ->
  exists a s', try_except m (fun _ => handler) env s = (Ok a, s').
Proof.
  intros Hh. unfold try_except. destruct (m env s) as [[a|e] s1]; eauto.
Qed.

Section WorkerProperties.
Context `{External}.

Lemma emits_put_car_data listings : emits is_put_or_log (put_car_data listings).
Proof.
  induction listings as [|listing rest IH]; cbn [put_car_data].
  - apply emits_ret.
  - apply emits_bind; [apply emits_lift|]. intros request.
    apply emits_bind; [apply emits_put_detail|]. intros _. exact IH.
Qed.

Lemma emits_search_page_work link : emits is_put_or_log (search_page_work link).
Proof.
  unfold search_page_work.
  repeat (apply emits_bind; [auto using emits_put_car_data with emits | intros ?]).
  apply emits_lift.
Qed.

Lemma emits_car_data_work link car_attrs :
  emits is_result_or_log (car_data_work link car_attrs).
Proof.
  unfold car_data_work.
  repeat (apply emits_bind; [auto with emits | intros ?]).
  apply emits_put_result.
Qed.

(** When every listing of a page is well formed, the loop over the
    generator queues one request per listing, in order, and nothing else. *)
Lemma put_car_data_all listings requests env s :
  Forall2 (fun listing request => get_car_data_yield listing = Ok request)
    listings requests ->
  exists s',
    put_car_data listings env s = (Ok tt, s') /\
    search_page_request_queue s' = search_page_request_queue s /\
    items (car_data_request_queue s') = items (car_data_request_queue s) ++ requests /\
    trace s' = trace s ++ repeat (EvPut DetailQueue) (length requests).
Proof.
  intros Hall. revert s.
  induction Hall as [|listing request listings requests Hyield _ IH]; intros s.
  - exists s. cbn. rewrite !app_nil_r. auto.
  - cbn [put_car_data]. unfold bind at 1, lift. rewrite Hyield.
    unfold bind at 1. cbn [put_detail].
    destruct (IH (log_event (EvPut DetailQueue)
                    (with_detail_queue (put request (car_data_request_queue s)) s)))
      as (s' & Hrun & Hpage & Hitems & Htrace).
    exists s'. split; [exact Hrun|]. split; [rewrite Hpage; reflexivity|].
    split; [rewrite Hitems; cbn; rewrite <- app_assoc; reflexivity|].
    rewrite Htrace. cbn. rewrite <- app_assoc. reflexivity.
Qed.

(** C2 (as amended): for a page that is fetched and parsed and whose
    listings are all well formed, the page worker queues one detail request
    per listing, in order, and then puts the page's [next] link on its own
    queue, whatever that link is: no test singles out the empty string. *)
Theorem page_worker_resubmits_every_next_link
  env s link q result response listings requests :
  get (search_page_request_queue s) = Some (link, q) ->
  0 < unfinished_tasks (search_page_request_queue s) ->
  http_get env link = Ok result ->
  new_search_page_response result = Ok response ->
  py_iter (SearchPageResponse.data response) = Ok listings ->
  Forall2 (fun listing request => get_car_data_yield listing = Ok request)
    listings requests ->
  exists s' logged,
    search_page_worker env s = Finished s' /\
    items (car_data_request_queue s') = items (car_data_request_queue s) ++ requests /\
    items (search_page_request_queue s')
    = items q ++ [SearchPageLinks.next (SearchPageResponse.links response)] /\
    trace s'
    = trace s ++ EvGet PageQueue :: repeat (EvPut DetailQueue) (length requests)
        ++ EvPut PageQueue :: logged ++ [EvLogDebug; EvTaskDone PageQueue] /\
    (logged = [] \/ logged = [EvLogError]).
Proof.
  intros Hget Hpos Hfetch Hparse Hiter Hall.
  unfold search_page_worker. rewrite Hget.
  set (s0 := log_event (EvGet PageQueue) (with_page_queue q s)).
  destruct (put_car_data_all listings requests env s0 Hall)
    as (s1 & Hrun & Hpage & Hitems & Htrace).
  pose proof (get_keeps_unfinished_tasks _ _ _ Hget) as Hq.
  unfold run_turn, bind, try_except, search_page_work, bind, requests_get, lift.
  rewrite Hfetch, Hparse, Hiter, Hrun. cbn [put_page].
  unfold task_done_page, task_done.
  destruct (format_progress response) as [[]|e]; cbn.
  all: rewrite Hpage; subst s0; cbn; rewrite Hq.
  all: destruct (Z.ltb_spec (unfinished_tasks (search_page_request_queue s) + 1 - 1) 0);
    [lia|].
  all: eexists.
  1: exists [].
  2: exists [EvLogError].
  all: split; [reflexivity|]; cbn.
  all: split; [rewrite Hitems; reflexivity|].
  all: split; [reflexivity|].
  all: split; [rewrite Htrace; cbn; rewrite <- !app_assoc; reflexivity | auto].
Qed.

(** C7: a turn of either fetching worker that takes an item from its queue
    calls [task_done] on that queue exactly once, as the last act of the
    turn, whatever the fetch returns or raises: the turn's trace is the
    [get], then events that hold no [get] and no [task_done], then the
    [task_done]. *)
Theorem workers_mark_done_exactly_once env s :
  (forall link q,
     get (search_page_request_queue s) = Some (link, q) ->
     0 < unfinished_tasks (search_page_request_queue s) ->
     exists s' evs,
       search_page_worker env s = Finished s' /\
       trace s' = trace s ++ EvGet PageQueue :: evs ++ [EvTaskDone PageQueue] /\
       count (is_get PageQueue) evs = 0%nat /\
       count (is_task_done PageQueue) evs = 0%nat /\
       unfinished_tasks (search_page_request_queue s')
       = unfinished_tasks (search_page_request_queue s)
         + Z.of_nat (count (is_put PageQueue) evs) - 1) /\
  (forall request q,
     get (car_data_request_queue s) = Some (request, q) ->
     0 < unfinished_tasks (car_data_request_queue s) ->
     exists s' evs,
       car_data_worker env s = Finished s' /\
       trace s' = trace s ++ EvGet DetailQueue :: evs ++ [EvTaskDone DetailQueue] /\
       count (is_get DetailQueue) evs = 0%nat /\
       count (is_task_done DetailQueue) evs = 0%nat /\
       unfinished_tasks (car_data_request_queue s')
       = unfinished_tasks (car_data_request_queue s) - 1).
Proof.
  split.
  - intros link q Hget Hpos. unfold search_page_worker. rewrite Hget.
    set (s0 := log_event (EvGet PageQueue) (with_page_queue q s)).
    assert (Hwork : emits is_put_or_log
              (try_except (search_page_work link) (fun _ => logger_error) ;;;
               logger_debug)).
    { apply emits_bind; [apply emits_try_except|];
        auto using emits_search_page_work with emits. }
    destruct (Hwork env s0) as (r & s1 & evs & Hrun & Htr & Hev & Hpend & _).
    pose proof (get_keeps_unfinished_tasks _ _ _ Hget) as Hq.
    destruct (try_except_catches_all (search_page_work link) logger_error env s0)
      as ([] & s0' & Hbody); [intros; eexists; eexists; reflexivity|].
    unfold run_turn, bind in *. rewrite Hbody in *.
    cbn in Hrun. rewrite Hrun. destruct r as [[]|e]; [|discriminate].
    specialize (Hpend PageQueue) as Hpage. cbn in Hpage.
    unfold task_done_page, task_done.
    destruct (Z.ltb_spec (unfinished_tasks (search_page_request_queue s1) - 1) 0)
      as [Hlt|Hge]; [subst s0; cbn in Hpage; lia|].
    eexists. exists evs. split; [reflexivity|]. cbn.
    split; [rewrite Htr; subst s0; cbn; rewrite <- !app_assoc; reflexivity|].
    split; [apply (count_none is_put_or_log);
            [intros []; try discriminate; reflexivity | exact Hev]|].
    split; [apply (count_none is_put_or_log);
            [intros []; try discriminate; reflexivity | exact Hev]|].
    subst s0. cbn in Hpage. lia.
  - intros [link car_attrs] q Hget Hpos. unfold car_data_worker. rewrite Hget.
    set (s0 := log_event (EvGet DetailQueue) (with_detail_queue q s)).
    assert (Hwork : emits is_result_or_log
              (try_except (car_data_work link car_attrs) (fun _ => logger_error) ;;;
               logger_debug)).
    { apply emits_bind; [apply emits_try_except|];
        auto using emits_car_data_work with emits. }
    destruct (Hwork env s0) as (r & s1 & evs & Hrun & Htr & Hev & Hpend & _).
    pose proof (get_keeps_unfinished_tasks _ _ _ Hget) as Hq.
    destruct (try_except_catches_all (car_data_work link car_attrs) logger_error env s0)
      as ([] & s0' & Hbody); [intros; eexists; eexists; reflexivity|].
    unfold run_turn, bind in *. rewrite Hbody in *.
    cbn in Hrun. rewrite Hrun. destruct r as [[]|e]; [|discriminate].
    specialize (Hpend DetailQueue) as Hdetail. cbn in Hdetail.
    assert (Hnoput : count (is_put DetailQueue) evs = 0%nat).
    { apply (count_none is_result_or_log); [|exact Hev].
      intros [| | |[]| | |]; try discriminate; reflexivity. }
    rewrite Hnoput in Hdetail.
    unfold task_done_detail, task_done.
    destruct (Z.ltb_spec (unfinished_tasks (car_data_request_queue s1) - 1) 0)
      as [Hlt|Hge]; [subst s0; cbn in Hdetail; lia|].
    eexists. exists evs. split; [reflexivity|]. cbn.
    split; [rewrite Htr; subst s0; cbn; rewrite <- !app_assoc; reflexivity|].
    split; [apply (count_none is_result_or_log);
            [intros [| | |[]| | |]; try discriminate; reflexivity | exact Hev]|].
    split; [apply (count_none is_result_or_log);
            [intros [| | |[]| | |]; try discriminate; reflexivity | exact Hev]|].
    subst s0. cbn in Hdetail. lia.
Qed.

(** A page whose fetch fails queues nothing: the chain of [next] links
    ends there.  This is how the empty link ends a run when the fetch of
    the empty string raises. *)
Lemma failed_page_fetch_queues_nothing env s link q e :
  get (search_page_request_queue s) = Some (link, q) ->
  0 < unfinished_tasks (search_page_request_queue s) ->
  http_get env link = Raise e ->
  exists s',
    search_page_worker env s = Finished s' /\
    items (search_page_request_queue s') = items q /\
    car_data_request_queue s' = car_data_request_queue s /\
    unfinished_tasks (search_page_request_queue s')
    = unfinished_tasks (search_page_request_queue s) - 1.
Proof.
  intros Hget Hpos Hfetch. unfold search_page_worker. rewrite Hget.
  pose proof (get_keeps_unfinished_tasks _ _ _ Hget) as Hq.
  unfold run_turn, bind, try_except, search_page_work, bind, requests_get.
  rewrite Hfetch. cbn.
  unfold task_done_page, task_done. cbn. rewrite Hq.
  destruct (Z.ltb_spec (unfinished_tasks (search_page_request_queue s) - 1) 0); [lia|].
  eexists. split; [reflexivity|]. cbn. auto.
Qed.

(** What [car_data_worker] does with a request whose fetch succeeds and
    whose response has a first element under ["data"]. *)
Lemma car_data_worker_emits env s link car_attrs q result data car_specs :
  get (car_data_request_queue s) = Some ((link, car_attrs), q) ->
  0 < unfinished_tasks (car_data_request_queue s) ->
  http_get env (JStr link) = Ok result ->
  getitem result "data" = Ok data ->
  getitem_idx data 0 = Ok car_specs ->
  exists s',
    car_data_worker env s = Finished s' /\
    items (car_data_result_queue s')
    = items (car_data_result_queue s)
        ++ [JDict [("car_attrs", car_attrs); ("car_specs", car_specs)]] /\
    trace s'
    = trace s ++ [EvGet DetailQueue; EvPut ResultQueue; EvLogDebug;
                  EvTaskDone DetailQueue].
Proof.
  intros Hget Hpos Hfetch Hdata Hfirst.
  unfold car_data_worker. rewrite Hget.
  pose proof (get_keeps_unfinished_tasks _ _ _ Hget) as Hq.
  unfold run_turn, bind, try_except, car_data_work, bind, requests_get, lift.
  rewrite Hfetch, Hdata, Hfirst. cbn.
  unfold task_done_detail, task_done. cbn. rewrite Hq.
  destruct (Z.ltb_spec (unfinished_tasks (car_data_request_queue s) - 1) 0); [lia|].
  eexists. split; [reflexivity|]. cbn.
  split; [reflexivity|]. rewrite <- !app_assoc. reflexivity.
Qed.

(** C8: for a detail fetch that succeeds, the record put on the result
    queue holds the seed attributes under ["car_attrs"] and the fetched
    payload under ["car_specs"], each as it was received.  The two sit
    under different keys, so every seed key keeps its value whatever keys
    the payload has. *)
Theorem detail_record_keeps_seed_and_payload
  env s link car_attrs q result data car_specs :
  get (car_data_request_queue s) = Some ((link, car_attrs), q) ->
  0 < unfinished_tasks (car_data_request_queue s) ->
  http_get env (JStr link) = Ok result ->
  getitem result "data" = Ok data ->
  getitem_idx data 0 = Ok car_specs ->
  exists s' record,
    car_data_worker env s = Finished s' /\
    items (car_data_result_queue s') = items (car_data_result_queue s) ++ [record] /\
    getitem record "car_attrs" = Ok car_attrs /\
    getitem record "car_specs" = Ok car_specs /\
    (forall k, rbind (getitem record "car_attrs") (fun seed => getitem seed k)
               = getitem car_attrs k).
Proof.
  intros Hget Hpos Hfetch Hdata Hfirst.
  destruct (car_data_worker_emits env s link car_attrs q result data car_specs
              Hget Hpos Hfetch Hdata Hfirst) as (s' & Hturn & Hitems & _).
  exists s', (JDict [("car_attrs", car_attrs); ("car_specs", car_specs)]).
  repeat split; auto.
Qed.

(** C10: of the list under ["data"] only the first element reaches the
    record; when the list is empty the lookup raises, the turn logs the
    error, puts nothing on the result queue and still calls [task_done]. *)
Theorem detail_worker_uses_first_data_element env s link car_attrs q result :
  get (car_data_request_queue s) = Some ((link, car_attrs), q) ->
  0 < unfinished_tasks (car_data_request_queue s) ->
  http_get env (JStr link) = Ok result ->
  (forall first rest,
     getitem result "data" = Ok (JList (first :: rest)) ->
     exists s',
       car_data_worker env s = Finished s' /\
       items (car_data_result_queue s')
       = items (car_data_result_queue s)
           ++ [JDict [("car_attrs", car_attrs); ("car_specs", first)]]) /\
  (getitem result "data" = Ok (JList []) ->
   exists s',
     car_data_worker env s = Finished s' /\
     car_data_result_queue s' = car_data_result_queue s /\
     trace s' = trace s ++ [EvGet DetailQueue; EvLogError; EvLogDebug;
                            EvTaskDone DetailQueue] /\
     unfinished_tasks (car_data_request_queue s')
     = unfinished_tasks (car_data_request_queue s) - 1).
Proof.
  intros Hget Hpos Hfetch. split.
  - intros first rest Hdata.
    destruct (car_data_worker_emits env s link car_attrs q result
                (JList (first :: rest)) first Hget Hpos Hfetch Hdata eq_refl)
      as (s' & Hturn & Hitems & _).
    exists s'. auto.
  - intros Hdata. unfold car_data_worker. rewrite Hget.
    pose proof (get_keeps_unfinished_tasks _ _ _ Hget) as Hq.
    unfold run_turn, bind, try_except, car_data_work, bind, requests_get, lift.
    rewrite Hfetch, Hdata. cbn.
    unfold task_done_detail, task_done. cbn. rewrite Hq.
    destruct (Z.ltb_spec (unfinished_tasks (car_data_request_queue s) - 1) 0); [lia|].
    eexists. split; [reflexivity|]. cbn.
    split; [reflexivity|]. split; [rewrite <- !app_assoc; reflexivity | reflexivity].
Qed.

End WorkerProperties.

(** ** [parser.py]: what flattening changes *)

Lemma dict_get_set {V} k k' (v : V) kvs :
  dict_get k (dict_set k' v kvs) = if String.eqb k k' then Some v else dict_get k kvs.
Proof.
  induction kvs as [|[k0 v0] kvs IH]; cbn.
  - destruct (String.eqb k k'); reflexivity.
  - destruct (String.eqb_spec k' k0) as [->|Hne]; cbn.
    + destruct (String.eqb k k0); reflexivity.
    + rewrite IH. destruct (String.eqb_spec k k0) as [->|]; [|reflexivity].
      destruct (String.eqb_spec k0 k'); [congruence | reflexivity].
Qed.

Lemma dict_get_del {V} k k' (kvs : list (string * V)) :
  dict_get k (dict_del k' kvs) = if String.eqb k k' then None else dict_get k kvs.
Proof.
  induction kvs as [|[k0 v0] kvs IH]; cbn.
  - destruct (String.eqb k k'); reflexivity.
  - destruct (String.eqb_spec k' k0) as [->|Hne]; cbn.
    + rewrite IH. destruct (String.eqb k k0); reflexivity.
    + rewrite IH. destruct (String.eqb_spec k k0) as [->|]; [|reflexivity].
      destruct (String.eqb_spec k0 k'); [congruence | reflexivity].
Qed.

Section Frame.
Import Parser.
Variables (h0 : heap) (la : nat).

Lemma framed_refl : framed h0 la h0.
Proof.
  split; [lia|]. intros l o Hl. exists o. repeat split; auto. left. reflexivity.
Qed.

Lemma same_but_touched_trans o1 o2 o3 :
  same_but_touched o1 o2 -> same_but_touched o2 o3 -> same_but_touched o1 o3.
Proof.
  intros [->|(k1 & k2 & -> & -> & H12)] [->|(k2' & k3 & Heq & -> & H23)].
  - left; reflexivity.
  - right. eauto 10.
  - right. eauto 10.
  - injection Heq as <-. right. exists k1, k3. repeat split; auto.
    intros k Hk. rewrite H23, H12; auto.
Qed.

Lemma keeps_bind {A B} I (m : Py A) (k : A -> Py B) p q :
  keeps I m p -> (forall a, p a -> keeps I (k a) q) -> keeps I (bind m k) q.
Proof.
  intros Hm Hk h Hh. specialize (Hm h Hh). unfold bind.
  destruct (m tt h) as [[a|e] h1]; [|exact Hm].
  destruct Hm as [Hh1 Hp]. exact (Hk a Hp h1 Hh1).
Qed.

Lemma keeps_weaken {A} I (m : Py A) (p q : A -> Prop) :
  keeps I m p -> (forall a, p a -> q a) -> keeps I m q.
Proof.
  intros Hm Hpq h Hh. specialize (Hm h Hh).
  destruct (m tt h) as [[a|e] h1]; [|exact Hm]. destruct Hm; auto.
Qed.

(** A computation that leaves the heap as it found it keeps everything. *)
Lemma keeps_reader {A} I (m : Py A) :
  (forall h, snd (m tt h) = h) -> keeps I m (fun _ => True).
Proof.
  intros Hread h Hh. specialize (Hread h).
  destruct (m tt h) as [[a|e] h1]; cbn in Hread; subst h1; auto.
Qed.

Lemma subscript_reads v k h : snd (subscript v k tt h) = h.
Proof. unfold subscript. repeat case_match; reflexivity. Qed.

Lemma iterate_reads v h : snd (iterate v tt h) = h.
Proof. unfold iterate. repeat case_match; reflexivity. Qed.

Lemma dict_items_reads v h : snd (dict_items v tt h) = h.
Proof. unfold dict_items. repeat case_match; reflexivity. Qed.

Lemma lift_reads {A} (r : result A) h : snd (lift (R := unit) (S := heap) r tt h) = h.
Proof. reflexivity. Qed.

Lemma keeps_for_each {A} I (xs : list A) (body : A -> Py unit) :
  (forall x, keeps I (body x) (fun _ => True)) ->
  keeps I (for_each xs body) (fun _ => True).
Proof.
  intros Hbody. induction xs as [|x xs IH]; cbn [for_each].
  - intros h Hh. cbn. auto.
  - eapply keeps_bind; [apply Hbody | intros _ _; exact IH].
Qed.

Lemma keeps_alloc o :
  keeps (framed h0 la) (alloc o) (fun v => exists l, v = VRef l /\ (length h0 <= l)%nat).
Proof.
  intros h [Hlen Hobj]. cbn. split; [|eauto].
  split; [rewrite length_app; lia|].
  intros l o0 Hl. destruct (Hobj l o0 Hl) as (o' & Hl' & Hne & Hsame).
  exists o'. split; [|auto]. apply lookup_app_l_Some. exact Hl'.
Qed.

Lemma framed_write h l kvs kvs' :
  framed h0 la h ->
  h !! l = Some (ODict kvs) ->
  ((l = la /\ forall k, touched_key k = false -> dict_get k kvs' = dict_get k kvs)
   \/ (length h0 <= l)%nat) ->
  framed h0 la (<[l := ODict kvs']> h).
Proof.
  intros [Hlen Hobj] Hl Hwhere. split; [rewrite length_insert; exact Hlen|].
  intros l1 o Hl1. destruct (Hobj l1 o Hl1) as (o' & Hl1' & Hne & Hsame).
  destruct (decide (l1 = l)) as [->|Hdiff].
  - destruct Hwhere as [[-> Hkeys]|Hfresh].
    + exists (ODict kvs'). split; [apply list_lookup_insert_eq; eapply lookup_lt_Some; eauto|].
      split; [intros Hc; now contradiction Hc|].
      apply (same_but_touched_trans o o'); [exact Hsame|].
      rewrite Hl in Hl1'. injection Hl1' as <-. right. eauto.
    + apply lookup_lt_Some in Hl1. lia.
  - exists o'. split; [rewrite list_lookup_insert_ne; auto | auto].
Qed.

Lemma keeps_store_item v k x :
  may_write h0 la v k -> keeps (framed h0 la) (store_item v k x) (fun _ => True).
Proof.
  intros Hmay h Hh. unfold store_item.
  destruct v as [| | | |l]; auto.
  destruct (h !! l) as [[xs|kvs]|] eqn:Hl; auto.
  split; [|exact I]. apply (framed_write h l kvs); auto.
  destruct (Hmay l eq_refl) as [[-> Hk]|Hfresh]; [left|right; exact Hfresh].
  split; [reflexivity|]. intros k' Hk'. rewrite dict_get_set.
  destruct (String.eqb_spec k' k) as [->|]; [congruence | reflexivity].
Qed.

Lemma keeps_dict_pop v k :
  may_write h0 la v k -> keeps (framed h0 la) (dict_pop v k) (fun _ => True).
Proof.
  intros Hmay h Hh. unfold dict_pop.
  destruct v as [| | | |l]; auto.
  destruct (h !! l) as [[xs|kvs]|] eqn:Hl; auto.
  destruct (dict_get k kvs) as [x|]; auto.
  split; [|exact I]. apply (framed_write h l kvs); auto.
  destruct (Hmay l eq_refl) as [[-> Hk]|Hfresh]; [left|right; exact Hfresh].
  split; [reflexivity|]. intros k' Hk'. rewrite dict_get_del.
  destruct (String.eqb_spec k' k) as [->|]; [congruence | reflexivity].
Qed.

Lemma keeps_dict_update v kvs :
  Forall (fun kv => may_write h0 la v (fst kv)) kvs ->
  keeps (framed h0 la) (dict_update v kvs) (fun _ => True).
Proof.
  intros Hall. unfold dict_update.
  induction Hall as [|kv kvs Hkv _ IH]; cbn [for_each].
  - intros h Hh. cbn. auto.
  - eapply keeps_bind; [apply keeps_store_item; exact Hkv | intros _ _; exact IH].
Qed.

End Frame.

Section Flatten.
Import Parser.

Lemma image_entries_keys items :
  Forall (fun kv => String.prefix "image_" (fst kv) = true) (image_entries items).
Proof.
  unfold image_entries.
  assert (Hgen : forall acc,
            Forall (fun kv : string * value => String.prefix "image_" (fst kv) = true) acc ->
            Forall (fun kv : string * value => String.prefix "image_" (fst kv) = true)
              (fold_left (fun acc kv => dict_set ("image_" +:+ fst kv) (snd kv) acc) items acc)).
  { induction items as [|[k v] items IH]; intros acc Hacc; cbn; [exact Hacc|].
    apply IH. clear IH. induction Hacc as [|[k0 v0] acc Hk0 Hrest IHacc]; cbn.
    - constructor; [|constructor]. cbn. destruct k; reflexivity.
    - destruct (String.eqb ("image_" +:+ k) k0).
      + constructor; [cbn; destruct k; reflexivity | assumption].
      + constructor; assumption. }
  apply Hgen. constructor.
Qed.

Lemma touched_image_key k : String.prefix "image_" k = true -> touched_key k = true.
Proof. intros Hk. unfold touched_key. rewrite Hk. apply orb_true_r. Qed.

Ltac keeps_step :=
  first
    [ apply keeps_reader;
      first [ apply subscript_reads | apply iterate_reads | apply dict_items_reads
            | intros; reflexivity ]
    | apply keeps_alloc ].

(** C9 (as amended): [flatten_car_data] builds its result in a new
    object, and of the objects it was given it changes one only, the
    [car_attrs] dictionary of the record, in place: there the keys
    [seller_types], [image] and [image_...] are rewritten, removed or
    added, and every other key keeps its value.  The detail payload and
    every other object are left as they were, whether the function
    returns or raises. *)
Theorem flatten_car_data_frame car_data h0 :
  (forall l o, h0 !! l = Some o ->
     exists o',
       snd (flatten_car_data car_data tt h0) !! l = Some o' /\
       (o' = o \/
        (fst (subscript car_data "car_attrs" tt h0) = Ok (VRef l) /\
         exists kvs kvs',
           o = ODict kvs /\ o' = ODict kvs' /\
           forall k, touched_key k = false -> dict_get k kvs' = dict_get k kvs))) /\
  (forall out, fst (flatten_car_data car_data tt h0) = Ok out ->
     exists l, out = VRef l /\ (length h0 <= l)%nat).
Proof.
  destruct (flatten_car_data car_data tt h0) as [result h'] eqn:Hrun. cbn [fst snd].
  unfold flatten_car_data in Hrun. unfold bind at 1 in Hrun.
  pose proof (subscript_reads car_data "car_attrs" h0) as Hread.
  destruct (subscript car_data "car_attrs" tt h0) as [[car_attrs|e] h1] eqn:Hattrs;
    cbn in Hread; subst h1; cbn [fst].
  2:{ injection Hrun as <- <-. split; [|intros out Hout; discriminate Hout].
      intros l o Hl. exists o. auto. }
  set (la := match car_attrs with VRef l => l | _ => length h0 end).
  assert (Hmay : forall k, touched_key k = true -> may_write h0 la car_attrs k).
  { intros k Hk l ->. left. split; [reflexivity | exact Hk]. }
  match type of Hrun with
  | ?rest tt h0 = _ =>
      assert (Hkeeps : keeps (framed h0 la) rest
                (fun out => exists l, out = VRef l /\ (length h0 <= l)%nat))
  end.
  { eapply keeps_bind; [keeps_step | intros car_specs _].
    eapply keeps_bind; [keeps_step | intros seller_types _].
    eapply keeps_bind; [keeps_step | intros parts _].
    eapply keeps_bind; [keeps_step | intros joined _].
    eapply keeps_bind; [apply keeps_store_item, Hmay; reflexivity | intros _ _].
    eapply keeps_bind; [apply keeps_dict_pop, Hmay; reflexivity | intros image _].
    eapply keeps_bind; [keeps_step | intros items _].
    eapply keeps_bind.
    { apply keeps_dict_update. eapply Forall_impl; [apply image_entries_keys|].
      intros kv Hkv. apply Hmay, touched_image_key, Hkv. }
    intros _ _.
    eapply keeps_bind; [keeps_step | intros new_car_spec (ln & -> & Hln)].
    eapply keeps_bind; [keeps_step | intros spec_dicts _].
    eapply keeps_bind.
    { apply keeps_for_each. intros spec_dict.
      eapply keeps_bind; [keeps_step | intros title _].
      eapply keeps_bind; [keeps_step | intros spec_name _].
      eapply keeps_bind; [keeps_step | intros attrs _].
      eapply keeps_bind; [keeps_step | intros spec_items _].
      apply keeps_for_each. intros spec_item.
      eapply keeps_bind; [keeps_step | intros label _].
      eapply keeps_bind; [keeps_step | intros label' _].
      eapply keeps_bind; [keeps_step | intros value _].
      apply keeps_store_item. intros l [= <-]. right. exact Hln. }
    intros _ _.
    eapply keeps_bind; [keeps_step | intros flat_attrs _].
    eapply keeps_bind; [keeps_step | intros flat_specs _].
    apply keeps_alloc. }
  specialize (Hkeeps h0 (framed_refl h0 la)). rewrite Hrun in Hkeeps.
  assert (Hframed : framed h0 la h') by (destruct result; tauto).
  split.
  - intros l o Hl. destruct Hframed as [_ Hobj].
    destruct (Hobj l o Hl) as (o' & Hl' & Hne & Hsame).
    exists o'. split; [exact Hl'|].
    destruct Hsame as [->|Hdict]; [left; reflexivity|].
    destruct (decide (l = la)) as [Hla|Hla]; [|left; auto].
    right. split; [|exact Hdict].
    apply lookup_lt_Some in Hl.
    subst la. destruct car_attrs; try lia; congruence.
  - intros out ->. apply Hkeeps.
Qed.

End Flatten.

(** ** Examples *)


(** Even a flush that meets no fault passes through a folder without a
    final file: after the removal, during the sleep. *)
Example flush_removes_store_before_rename :
  let r := @save_batch_to_file sample_external "cars.json" [sample_record] ""
             (sample_env None) (sample_system stored_once) in
  fst r = Ok true /\
  existsb (fun e => match e with
                    | EvIo IoSleep after => negb (bool_decide (is_Some (after !! "runs/cars.json")))
                    | _ => false
                    end) (trace (snd r)) = true.
Proof. vm_compute. split; reflexivity. Qed.

(** C4 at a store of one record and a batch of one record. *)
Lemma flush_appends_batch_to_store_example :
  exists s',
    @save_batch_to_file sample_external "cars.json" [sample_record] ""
      (sample_env None) (sample_system stored_once) = (Ok true, s') /\
    files s' !! "runs/cars.json"
    = Some (compact_dump (JList [sample_record; sample_record])).
Proof.
  destruct (@flush_appends_batch_to_store sample_external "cars.json" [sample_record] ""
              (sample_env None) (sample_system stored_once)) as [Happends _].
  destruct (Happends [sample_record]) as (s' & Hsave & Hfiles).
  - reflexivity.
  - apply list_store. vm_compute. reflexivity.
  - exists s'. split; [exact Hsave|]. rewrite Hfiles. vm_compute. reflexivity.
Defined.

(** C4 (counterexample): a store whose bytes are not text, and a store
    that holds the JSON object [{}].  Neither is read as an empty store:
    the flush of one record reports failure and the store is what it
    was, without the record. *)
Lemma unusable_store_is_not_read_as_empty :
  let r1 := @save_batch_to_file sample_external "cars.json" [sample_record] ""
              (sample_env (Some AtDecode)) (sample_system stored_undecodable) in
  let r2 := @save_batch_to_file sample_external "cars.json" [sample_record] ""
              (sample_env None) (sample_system stored_object) in
  (fst r1 = Ok false /\
   map_to_list (files (snd r1)) = [("runs/cars.json", String (ascii_of_nat 255) EmptyString)]) /\
  (@json_load sample_external (compact_dump (JDict [])) = Some (JDict []) /\
   fst r2 = Ok false /\
   map_to_list (files (snd r2)) = [("runs/cars.json", compact_dump (JDict []))]).
Proof. vm_compute. auto. Qed.


(** C2 (counterexample): the page's [next] link is the empty string, and
    after the turn the page queue holds that empty string, counted as
    unfinished work. *)
Lemma empty_next_link_is_resubmitted :
  exists s',
    @search_page_worker sample_external sample_online page_pending = Finished s' /\
    (SearchPageLinks.next <$> (SearchPageResponse.links <$>
       match new_search_page_response sample_last_page with Ok r => Some r | _ => None end))
    = Some (JStr "") /\
    items (search_page_request_queue s') = [JStr ""] /\
    unfinished_tasks (search_page_request_queue s') = 1.
Proof. eexists. vm_compute. repeat split; reflexivity. Qed.

(** C2 (as amended) at the last page of the sample server. *)
Lemma page_worker_resubmits_every_next_link_example :
  exists s',
    @search_page_worker sample_external sample_online page_pending = Finished s' /\
    items (car_data_request_queue s')
    = [(CAR_DATA_LINK +:+ "/ABC/2020",
        JDict [("code", JStr "ABC"); ("year", JNum 2020)]);
       (CAR_DATA_LINK +:+ "/XYZ/2020",
        JDict [("code", JStr "XYZ"); ("year", JNum 2020)])] /\
    items (search_page_request_queue s') = [JStr ""].
Proof.
  destruct (@page_worker_resubmits_every_next_link sample_external sample_online
              page_pending (JStr "https://page/3") {| items := []; unfinished_tasks := 1 |}
              sample_last_page
              {| SearchPageResponse.links :=
                   {| SearchPageLinks.self := JStr "https://page/3";
                      SearchPageLinks.first := JStr "";
                      SearchPageLinks.next := JStr "";
                      SearchPageLinks.prev := JStr "";
                      SearchPageLinks.last := JStr "" |};
                 SearchPageResponse.data := JList [sample_listing "ABC"; sample_listing "XYZ"];
                 SearchPageResponse.current_page := JNum 3;
                 SearchPageResponse.total_pages := JNum 3 |}
              [sample_listing "ABC"; sample_listing "XYZ"]
              [(CAR_DATA_LINK +:+ "/ABC/2020",
                JDict [("code", JStr "ABC"); ("year", JNum 2020)]);
               (CAR_DATA_LINK +:+ "/XYZ/2020",
                JDict [("code", JStr "XYZ"); ("year", JNum 2020)])])
    as (s' & logged & Hturn & Hdetail & Hpage & _).
  - reflexivity.
  - reflexivity.
  - reflexivity.
  - reflexivity.
  - reflexivity.
  - repeat constructor.
  - exists s'. auto.
Defined.

(** C5 at a batch of [BATCH_SIZE - 1] records and one record waiting. *)
Lemma full_batch_is_flushed_at_once_example :
  exists p' s',
    @save_car_data_worker sample_external "" 0%Q 1%Q (sample_env None)
      nearly_full result_pending = Finished (p', s') /\
    last_save_time p' = 1%Q /\
    last (trace s') = Some (EvTaskDone ResultQueue).
Proof.
  destruct (@full_batch_is_flushed_at_once sample_external "" 0%Q 1%Q (sample_env None)
              nearly_full result_pending sample_record
              {| items := []; unfinished_tasks := 1 |})
    as (saved & s1 & s' & evs & Hsave & Hturn & _ & Htrace & _).
  - reflexivity.
  - vm_compute. discriminate.
  - reflexivity.
  - eexists. exists s'. split; [exact Hturn|]. split; [reflexivity|].
    rewrite Htrace. change (EvGet ResultQueue :: evs ++ [EvTaskDone ResultQueue])
      with ((EvGet ResultQueue :: evs) ++ [EvTaskDone ResultQueue]).
    rewrite app_assoc. apply last_snoc.
Defined.

(** C6 at a batch of one record and an empty result queue. *)
Lemma timeout_flushes_nonempty_batch_example :
  exists p' s',
    @save_car_data_worker sample_external "" 0%Q 1%Q (sample_env None)
      one_waiting (sample_system ∅) = Finished (p', s') /\
    hd_error (trace s') = Some (EvEmpty ResultQueue).
Proof.
  destruct (@timeout_flushes_nonempty_batch sample_external "" 0%Q 1%Q (sample_env None)
              one_waiting (sample_system ∅))
    as (p' & s' & evs & Hturn & Htrace & _).
  - reflexivity.
  - exists p', s'. split; [exact Hturn|]. rewrite Htrace. reflexivity.
Defined.

(** C7 at a page request and a detail request whose fetches fail. *)
Lemma workers_mark_done_exactly_once_example :
  (exists s', @search_page_worker sample_external (sample_env None) page_pending
              = Finished s') /\
  (exists s', car_data_worker (sample_env None)
                (detail_pending "https://detail/ABC") = Finished s').
Proof.
  destruct (@workers_mark_done_exactly_once sample_external (sample_env None) page_pending)
    as [Hpage _].
  destruct (@workers_mark_done_exactly_once sample_external (sample_env None)
              (detail_pending "https://detail/ABC")) as [_ Hdetail].
  split.
  - destruct (Hpage (JStr "https://page/3") {| items := []; unfinished_tasks := 1 |})
      as (s' & evs & Hturn & _); [reflexivity | reflexivity | eauto].
  - destruct (Hdetail ("https://detail/ABC", sample_attrs)
                {| items := []; unfinished_tasks := 1 |})
      as (s' & evs & Hturn & _); [reflexivity | reflexivity | eauto].
Defined.

(** C8 at the seed attributes and the detail resource of the sample
    server. *)
Lemma detail_record_keeps_seed_and_payload_example :
  exists s' record,
    car_data_worker sample_online (detail_pending "https://detail/ABC") = Finished s' /\
    items (car_data_result_queue s') = [record] /\
    getitem record "car_attrs" = Ok sample_attrs /\
    getitem record "car_specs" = Ok sample_specs.
Proof.
  destruct (detail_record_keeps_seed_and_payload sample_online
              (detail_pending "https://detail/ABC") "https://detail/ABC" sample_attrs
              {| items := []; unfinished_tasks := 1 |} sample_detail
              (JList [sample_specs; JStr "ignored"]) sample_specs)
    as (s' & record & Hturn & Hitems & Hattrs & Hspecs & _).
  - reflexivity.
  - reflexivity.
  - reflexivity.
  - reflexivity.
  - reflexivity.
  - exists s', record. auto.
Defined.

(** C10 at a response with two elements under ["data"] and at one with
    none. *)
Lemma detail_worker_uses_first_data_element_example :
  (exists s',
     car_data_worker sample_online (detail_pending "https://detail/ABC") = Finished s' /\
     items (car_data_result_queue s') = [sample_record]) /\
  (exists s',
     car_data_worker sample_online (detail_pending "https://detail/none") = Finished s' /\
     items (car_data_result_queue s') = [] /\
     unfinished_tasks (car_data_request_queue s') = 0).
Proof.
  split.
  - destruct (detail_worker_uses_first_data_element sample_online
                (detail_pending "https://detail/ABC") "https://detail/ABC" sample_attrs
                {| items := []; unfinished_tasks := 1 |} sample_detail)
      as [Hfirst _]; [reflexivity | reflexivity | reflexivity |].
    destruct (Hfirst sample_specs [JStr "ignored"]) as (s' & Hturn & Hitems);
      [reflexivity|].
    exists s'. split; [exact Hturn | exact Hitems].
  - destruct (detail_worker_uses_first_data_element sample_online
                (detail_pending "https://detail/none") "https://detail/none" sample_attrs
                {| items := []; unfinished_tasks := 1 |} (JDict [("data", JList [])]))
      as [_ Hempty]; [reflexivity | reflexivity | reflexivity |].
    destruct (Hempty eq_refl) as (s' & Hturn & Hqueue & _ & Hpending).
    exists s'. split; [exact Hturn|]. rewrite Hqueue, Hpending. split; reflexivity.
Defined.

(** C9 (counterexample): after [flatten_car_data] the record read back
    from the heap has a joined [seller_types], no [image] and a new
    [image_url]; its [car_specs] are as before. *)
Lemma flatten_car_data_rewrites_seed_attributes :
  let '(car_data, h) := Parser.load_json Parser.sample_car_data [] in
  let '(out, h') := Parser.flatten_car_data car_data tt h in
  Parser.to_json 6 h car_data = Some Parser.sample_car_data /\
  Parser.to_json 6 h' car_data
  = Some (JDict [("car_attrs",
                  JDict [("code", JStr "ABC"); ("year", JNum 2020);
                         ("seller_types", JStr "dealer,private");
                         ("image_url", JStr "u.jpg")]);
                 ("car_specs",
                  JList [JDict [("title", JStr "Engine");
                                ("attrs", JList [JDict [("label", JStr "Power Output");
                                                        ("value", JStr "100kW")]])]])]) /\
  Parser.to_json 6 h' car_data <> Parser.to_json 6 h car_data.
Proof. vm_compute. repeat split; try reflexivity. discriminate. Qed.

(** * Further properties *)

(** ** Naming the run *)

Lemma ends_with_append (a suffix : pystr) : ends_with suffix (a ++ suffix) = true.
Proof. unfold ends_with. apply bool_decide_eq_true. apply suffix_app_r. reflexivity. Qed.

(** X1: [get_valid_filename] raises [ValueError] exactly on a name of fewer
    than five characters, whatever the characters are; otherwise it
    returns a name that ends in [.json], adding the suffix only when it is
    missing, and applying it again to its own result changes nothing. *)
Theorem get_valid_filename_ends_in_json typed :
  match get_valid_filename typed with
  | Ok filename =>
      (5 <= length typed)%nat /\
      ends_with (str_of ".json") filename = true /\
      (filename = if ends_with (str_of ".json") typed then typed
                  else typed ++ str_of ".json") /\
      get_valid_filename filename = Ok filename
  | Raise e => e = ValueError /\ (length typed < 5)%nat
  end.
Proof.
  unfold get_valid_filename.
  destruct (Nat.ltb_spec (length typed) 5) as [Hshort|Hlong]; [auto|].
  destruct (ends_with (str_of ".json") typed) eqn:Hsuffix; cbn [negb].
  - repeat split; auto.
    destruct (Nat.ltb_spec (length typed) 5); [lia|]. rewrite Hsuffix. reflexivity.
  - repeat split; auto using ends_with_append.
    rewrite length_app.
    destruct (Nat.ltb_spec (length typed + length (str_of ".json")) 5); [lia|].
    rewrite ends_with_append. reflexivity.
Qed.

(** ** Page responses *)

(** X2: [new_search_page_response] accepts exactly the objects that have a
    [links] object with no key besides the five link fields, a [data]
    entry and a [meta] object with [currentPage] and [totalPages]; it
    checks the type of none of the values it stores.  A link field that is
    missing reads as the empty string, so a last page without [next] has
    the empty [next] link. *)
Theorem new_search_page_response_accepts r resp :
  new_search_page_response r = Ok resp <->
  exists kvs lk m,
    r = JDict kvs /\
    dict_get "links" kvs = Some (JDict lk) /\
    forallb (fun kv => is_link_field (fst kv)) lk = true /\
    dict_get "data" kvs = Some (SearchPageResponse.data resp) /\
    dict_get "meta" kvs = Some (JDict m) /\
    dict_get "currentPage" m = Some (SearchPageResponse.current_page resp) /\
    dict_get "totalPages" m = Some (SearchPageResponse.total_pages resp) /\
    SearchPageResponse.links resp =
      {| SearchPageLinks.self := default (JStr "") (dict_get "self" lk);
         SearchPageLinks.first := default (JStr "") (dict_get "first" lk);
         SearchPageLinks.next := default (JStr "") (dict_get "next" lk);
         SearchPageLinks.prev := default (JStr "") (dict_get "prev" lk);
         SearchPageLinks.last := default (JStr "") (dict_get "last" lk) |}.
Proof.
  unfold new_search_page_response, new_search_page_links, getitem, rbind. split.
  - destruct r as [| | | | |kvs]; try discriminate.
    destruct (dict_get "links" kvs) as [[| | | | |lk]|] eqn:Hlinks; try discriminate.
    destruct (forallb _ lk) eqn:Hkeys; try discriminate.
    destruct (dict_get "data" kvs) as [d|] eqn:Hdata; try discriminate.
    destruct (dict_get "meta" kvs) as [[| | | | |m]|] eqn:Hmeta; try discriminate.
    destruct (dict_get "currentPage" m) as [cp|] eqn:Hcp; try discriminate.
    destruct (dict_get "totalPages" m) as [tp|] eqn:Htp; try discriminate.
    intros [= <-]. exists kvs, lk, m. cbn. repeat split; auto.
  - intros (kvs & lk & m & -> & Hlinks & Hkeys & Hdata & Hmeta & Hcp & Htp & Hrec).
    rewrite Hlinks, Hkeys, Hdata, Hmeta, Hcp, Htp.
    destruct resp as [links data cp tp]. cbn in *. subst links. reflexivity.
Qed.

Section MoreWorkers.
Context `{External}.

(** X3: A page link whose fetch fails, whose response is not a page or whose
    [data] cannot be iterated is dropped: the turn logs the error and
    marks the link done, and no request and no further link is queued. *)
Theorem unreadable_page_ends_the_chain env s link q e :
  get (search_page_request_queue s) = Some (link, q) ->
  0 < unfinished_tasks (search_page_request_queue s) ->
  page_listings env link = Raise e ->
  exists s',
    search_page_worker env s = Finished s' /\
    items (search_page_request_queue s') = items q /\
    unfinished_tasks (search_page_request_queue s')
    = unfinished_tasks (search_page_request_queue s) - 1 /\
    car_data_request_queue s' = car_data_request_queue s /\
    car_data_result_queue s' = car_data_result_queue s /\
    trace s' = trace s ++ [EvGet PageQueue; EvLogError; EvLogDebug; EvTaskDone PageQueue].
Proof.
  intros Hget Hpos Hfail. unfold search_page_worker. rewrite Hget.
  pose proof (get_keeps_unfinished_tasks _ _ _ Hget) as Hq.
  unfold run_turn, bind, try_except, search_page_work, bind, requests_get, lift.
  unfold page_listings, rbind in Hfail.
  assert (Hdone : forall s0 : System,
            search_page_request_queue s0 = q ->
            task_done_page env (log_event EvLogDebug (log_event EvLogError s0))
            = (Ok tt, log_event (EvTaskDone PageQueue)
                        (with_page_queue
                           {| items := items q;
                              unfinished_tasks := unfinished_tasks q - 1 |}
                           (log_event EvLogDebug (log_event EvLogError s0))))).
  { intros s0 Hs0. unfold task_done_page, task_done. cbn. rewrite Hs0, Hq.
    destruct (Z.ltb_spec (unfinished_tasks (search_page_request_queue s) - 1) 0);
      [lia | reflexivity]. }
  destruct (http_get env link) as [result|]; cbn;
    [destruct (new_search_page_response result) as [response|]; cbn;
     [destruct (py_iter (SearchPageResponse.data response)); [discriminate|] |] |].
  all: cbn; rewrite Hdone by reflexivity; eexists; split; [reflexivity|]; cbn.
  all: rewrite Hq, <- !app_assoc; auto 10.
Qed.

(** X4: A listing without [attributes], [code] or [year] stops the page: the
    requests of the listings before it are queued and stay queued, the
    listings after it are never looked at, and the [next] link is not
    queued, so the chain of pages ends there. *)
Theorem malformed_listing_ends_the_chain
  env s link q response good bad rest requests e :
  get (search_page_request_queue s) = Some (link, q) ->
  0 < unfinished_tasks (search_page_request_queue s) ->
  page_listings env link = Ok (response, good ++ bad :: rest) ->
  Forall2 (fun listing request => get_car_data_yield listing = Ok request)
    good requests ->
  get_car_data_yield bad = Raise e ->
  exists s',
    search_page_worker env s = Finished s' /\
    items (car_data_request_queue s') = items (car_data_request_queue s) ++ requests /\
    items (search_page_request_queue s') = items q /\
    unfinished_tasks (search_page_request_queue s')
    = unfinished_tasks (search_page_request_queue s) - 1 /\
    trace s'
    = trace s ++ EvGet PageQueue :: repeat (EvPut DetailQueue) (length requests)
        ++ [EvLogError; EvLogDebug; EvTaskDone PageQueue].
Proof.
  intros Hget Hpos Hpage Hgood Hbad. unfold search_page_worker. rewrite Hget.
  pose proof (get_keeps_unfinished_tasks _ _ _ Hget) as Hq.
  set (s0 := log_event (EvGet PageQueue) (with_page_queue q s)).
  assert (Hloop : forall s1,
            exists s2,
              put_car_data (good ++ bad :: rest) env s1 = (Raise e, s2) /\
              search_page_request_queue s2 = search_page_request_queue s1 /\
              items (car_data_request_queue s2)
              = items (car_data_request_queue s1) ++ requests /\
              trace s2 = trace s1 ++ repeat (EvPut DetailQueue) (length requests)).
  { clear -Hgood Hbad.
    induction Hgood as [|listing request good requests Hyield _ IH]; intros s1.
    - exists s1. cbn. unfold bind, lift. rewrite Hbad, !app_nil_r. auto.
    - cbn [app put_car_data]. unfold bind at 1, lift. rewrite Hyield.
      unfold bind at 1. cbn [put_detail].
      destruct (IH (log_event (EvPut DetailQueue)
                      (with_detail_queue (put request (car_data_request_queue s1)) s1)))
        as (s2 & Hrun & Hpage & Hitems & Htrace).
      exists s2. split; [exact Hrun|]. split; [rewrite Hpage; reflexivity|].
      split; [rewrite Hitems; cbn; rewrite <- app_assoc; reflexivity|].
      rewrite Htrace. cbn. rewrite <- app_assoc. reflexivity. }
  destruct (Hloop s0) as (s2 & Hrun & Hsame & Hitems & Htrace).
  unfold page_listings, rbind in Hpage.
  unfold run_turn, bind, try_except, search_page_work, bind, requests_get, lift.
  destruct (http_get env link) as [result|]; [|discriminate].
  destruct (new_search_page_response result) as [response'|]; [|discriminate].
  destruct (py_iter (SearchPageResponse.data response')) as [listings|]; [|discriminate].
  injection Hpage as -> ->. rewrite Hrun. cbn.
  unfold task_done_page, task_done. cbn. rewrite Hsame. subst s0. cbn. rewrite Hq.
  destruct (Z.ltb_spec (unfinished_tasks (search_page_request_queue s) - 1) 0); [lia|].
  eexists. split; [reflexivity|]. cbn.
  split; [exact Hitems|]. split; [reflexivity|]. split; [reflexivity|].
  rewrite Htrace. cbn. rewrite <- !app_assoc. reflexivity.
Qed.

End MoreWorkers.

(** X5: A detail request whose fetch fails, or whose response has no first
    element under ["data"], is dropped for good: the turn logs the error
    and marks the request done; nothing is put on any queue and the seed
    attributes appear nowhere afterwards. *)
Theorem failed_detail_request_is_dropped env s link car_attrs q e :
  get (car_data_request_queue s) = Some ((link, car_attrs), q) ->
  0 < unfinished_tasks (car_data_request_queue s) ->
  detail_payload env link = Raise e ->
  exists s',
    car_data_worker env s = Finished s' /\
    car_data_result_queue s' = car_data_result_queue s /\
    search_page_request_queue s' = search_page_request_queue s /\
    items (car_data_request_queue s') = items q /\
    unfinished_tasks (car_data_request_queue s')
    = unfinished_tasks (car_data_request_queue s) - 1 /\
    trace s' = trace s ++ [EvGet DetailQueue; EvLogError; EvLogDebug;
                           EvTaskDone DetailQueue].
Proof.
  intros Hget Hpos Hfail. unfold car_data_worker. rewrite Hget.
  pose proof (get_keeps_unfinished_tasks _ _ _ Hget) as Hq.
  unfold run_turn, bind, try_except, car_data_work, bind, requests_get, lift.
  unfold detail_payload, rbind in Hfail.
  destruct (http_get env (JStr link)) as [result|]; cbn;
    [destruct (getitem result "data") as [data|]; cbn;
     [destruct (getitem_idx data 0); [discriminate|] |] |].
  all: cbn; unfold task_done_detail, task_done; cbn; rewrite Hq.
  all: destruct (Z.ltb_spec (unfinished_tasks (car_data_request_queue s) - 1) 0); [lia|].
  all: eexists; split; [reflexivity|]; cbn; rewrite <- !app_assoc; auto 10.
Qed.

(** ** Work in flight *)

Lemma balanced_lift {A} (r : result A) : balanced (lift r).
Proof. intros env s q. reflexivity. Qed.

Lemma balanced_requests_get link : balanced (requests_get link).
Proof. intros env s q. reflexivity. Qed.

Lemma balanced_bind {A B} (m : Prog A) (k : A -> Prog B) :
  balanced m -> (forall a, balanced (k a)) -> balanced (bind m k).
Proof.
  intros Hm Hk env s q. specialize (Hm env s q). unfold bind.
  destruct (m env s) as [[a|e] s1]; cbn in *; [|exact Hm].
  rewrite (Hk a env s1 q). exact Hm.
Qed.

Lemma balanced_try_except {A} (m : Prog A) (handler : exn -> Prog A) :
  balanced m -> (forall e, balanced (handler e)) -> balanced (try_except m handler).
Proof.
  intros Hm Hh env s q. specialize (Hm env s q). unfold try_except.
  destruct (m env s) as [[a|e] s1]; cbn in *; [exact Hm|].
  rewrite (Hh e env s1 q). exact Hm.
Qed.

Ltac balanced_op :=
  intros env s [];
  unfold in_flight, pending, backlog; cbn; rewrite ?length_app; cbn; lia.

Lemma balanced_put_page link : balanced (put_page link).
Proof. balanced_op. Qed.

Lemma balanced_put_detail request : balanced (put_detail request).
Proof. balanced_op. Qed.

Lemma balanced_put_result record : balanced (put_result record).
Proof. balanced_op. Qed.

Lemma balanced_logger_error : balanced logger_error.
Proof. balanced_op. Qed.

Lemma balanced_logger_debug : balanced logger_debug.
Proof. balanced_op. Qed.

Create HintDb balanced.
#[export] Hint Resolve balanced_lift balanced_requests_get balanced_put_page
  balanced_put_detail balanced_put_result balanced_logger_error balanced_logger_debug
  : balanced.

(** The number in flight depends on the queues alone. *)
Lemma in_flight_same_queues s s' :
  search_page_request_queue s' = search_page_request_queue s ->
  car_data_request_queue s' = car_data_request_queue s ->
  car_data_result_queue s' = car_data_result_queue s ->
  forall q, in_flight q s' = in_flight q s.
Proof.
  intros Hp Hd Hr []; unfold in_flight, pending, backlog; rewrite ?Hp, ?Hd, ?Hr;
    reflexivity.
Qed.

(** Taking an item puts one more in flight on that queue. *)
Lemma get_backlog {A} (q q' : Queue A) (x : A) :
  get q = Some (x, q') ->
  Z.of_nat (length (items q)) = Z.of_nat (length (items q')) + 1.
Proof.
  unfold get. destruct (items q) as [|y rest]; [discriminate|].
  intros [= _ <-]. cbn [items length]. lia.
Qed.

Section InFlight.
Context `{External}.

Lemma balanced_put_car_data listings : balanced (put_car_data listings).
Proof.
  induction listings as [|listing rest IH]; cbn [put_car_data].
  - intros env s q. reflexivity.
  - apply balanced_bind; [apply balanced_lift|]. intros request.
    apply balanced_bind; [apply balanced_put_detail|]. intros _. exact IH.
Qed.

Lemma balanced_search_page_work link : balanced (search_page_work link).
Proof.
  unfold search_page_work.
  repeat (apply balanced_bind; [auto using balanced_put_car_data with balanced | intros ?]).
  apply balanced_lift.
Qed.

Lemma balanced_car_data_work link car_attrs : balanced (car_data_work link car_attrs).
Proof.
  unfold car_data_work.
  repeat (apply balanced_bind; [auto with balanced | intros ?]).
  apply balanced_put_result.
Qed.

Lemma balanced_process_batch batch filename prefix :
  balanced (process_batch batch filename prefix).
Proof.
  intros env s q. unfold process_batch. destruct batch as [|r b]; [reflexivity|].
  destruct (save_batch_to_file_returns filename (r :: b) prefix env s)
    as (saved & s' & evs & Hsave & Hp & Hd & Hr & _).
  unfold bind. rewrite Hsave. destruct saved; cbn; apply in_flight_same_queues; auto.
Qed.

(** [process_batch] never raises. *)
Lemma process_batch_returns batch filename prefix env s :
  exists batch' s', process_batch batch filename prefix env s = (Ok batch', s').
Proof.
  unfold process_batch. destruct batch as [|r b]; [cbn; eauto|].
  destruct (save_batch_to_file_returns filename (r :: b) prefix env s)
    as (saved & s' & evs & Hsave & _).
  unfold bind. rewrite Hsave. destruct saved; cbn; eauto.
Qed.

(** X6: As long as no queue counts fewer unfinished tasks than it holds
    items, no turn of any of the three workers ends its thread (the
    [task_done] of the turn cannot raise), and a turn that runs leaves on
    every queue as many items in flight as before: what it took it marked
    done, and what it put is counted.  A worker blocks only on an empty
    queue; the persister never blocks. *)
Theorem turns_keep_queues_balanced _p now saved_at env p s :
  (forall q, 0 <= in_flight q s) ->
  match search_page_worker env s with
  | Blocked => items (search_page_request_queue s) = []
  | Finished s' => forall q, in_flight q s' = in_flight q s
  | Died _ _ => False
  end /\
  match car_data_worker env s with
  | Blocked => items (car_data_request_queue s) = []
  | Finished s' => forall q, in_flight q s' = in_flight q s
  | Died _ _ => False
  end /\
  match save_car_data_worker _p now saved_at env p s with
  | Blocked => False
  | Finished (_, s') => forall q, in_flight q s' = in_flight q s
  | Died _ _ => False
  end.
Proof.
  intros Hok. split; [|split].
  - unfold search_page_worker.
    destruct (get (search_page_request_queue s)) as [[link q0]|] eqn:Hget.
    2:{ unfold get in Hget. destruct (items (search_page_request_queue s));
          [reflexivity | discriminate]. }
    pose proof (get_keeps_unfinished_tasks _ _ _ Hget) as Hq.
    pose proof (get_backlog _ _ _ Hget) as Hlen.
    set (s0 := log_event (EvGet PageQueue) (with_page_queue q0 s)).
    assert (Hwork : balanced (try_except (search_page_work link) (fun _ => logger_error)
                              ;;; logger_debug)).
    { apply balanced_bind; [apply balanced_try_except|];
        auto using balanced_search_page_work with balanced. }
    destruct (try_except_catches_all (search_page_work link) logger_error env s0)
      as ([] & s0' & Hbody); [intros; eexists; eexists; reflexivity|].
    pose proof (Hwork env s0) as Hflight.
    unfold run_turn, bind in *. rewrite Hbody in *. cbn in Hflight |- *.
    pose proof (Hflight PageQueue) as Hpage.
    pose proof (Hok PageQueue) as Hnonneg.
    unfold in_flight, pending, backlog in Hpage, Hnonneg. subst s0. cbn in Hpage.
    unfold task_done_page, task_done. cbn.
    destruct (Z.ltb_spec (unfinished_tasks (search_page_request_queue s0') - 1) 0)
      as [Hlt|Hge]; [lia|].
    intros [].
    + unfold in_flight, pending, backlog. cbn. lia.
    + exact (Hflight DetailQueue).
    + exact (Hflight ResultQueue).
  - unfold car_data_worker.
    destruct (get (car_data_request_queue s)) as [[[link car_attrs] q0]|] eqn:Hget.
    2:{ unfold get in Hget. destruct (items (car_data_request_queue s));
          [reflexivity | discriminate]. }
    pose proof (get_keeps_unfinished_tasks _ _ _ Hget) as Hq.
    pose proof (get_backlog _ _ _ Hget) as Hlen.
    set (s0 := log_event (EvGet DetailQueue) (with_detail_queue q0 s)).
    assert (Hwork : balanced (try_except (car_data_work link car_attrs)
                                (fun _ => logger_error) ;;; logger_debug)).
    { apply balanced_bind; [apply balanced_try_except|];
        auto using balanced_car_data_work with balanced. }
    destruct (try_except_catches_all (car_data_work link car_attrs) logger_error env s0)
      as ([] & s0' & Hbody); [intros; eexists; eexists; reflexivity|].
    pose proof (Hwork env s0) as Hflight.
    unfold run_turn, bind in *. rewrite Hbody in *. cbn in Hflight |- *.
    pose proof (Hflight DetailQueue) as Hdetail.
    pose proof (Hok DetailQueue) as Hnonneg.
    unfold in_flight, pending, backlog in Hdetail, Hnonneg. subst s0. cbn in Hdetail.
    unfold task_done_detail, task_done. cbn.
    destruct (Z.ltb_spec (unfinished_tasks (car_data_request_queue s0') - 1) 0)
      as [Hlt|Hge]; [lia|].
    intros [].
    + exact (Hflight PageQueue).
    + unfold in_flight, pending, backlog. cbn. lia.
    + exact (Hflight ResultQueue).
  - unfold save_car_data_worker, run_persister_turn.
    destruct (get (car_data_result_queue s)) as [[data q0]|] eqn:Hget.
    + pose proof (get_keeps_unfinished_tasks _ _ _ Hget) as Hq.
      pose proof (get_backlog _ _ _ Hget) as Hlen.
      set (s0 := log_event (EvGet ResultQueue) (with_result_queue q0 s)).
      unfold accept_result, bind.
      assert (Hstep : exists p1 s1,
                (if flush_due (batch p ++ [data]) now (last_save_time p)
                 then
                   batch2 <- process_batch (batch p ++ [data]) FILENAME _p ;;
                   ret {| batch := batch2; last_save_time := saved_at |}
                 else ret {| batch := batch p ++ [data];
                             last_save_time := last_save_time p |}) env s0
                = (Ok p1, s1) /\ forall q, in_flight q s1 = in_flight q s0).
      { destruct (flush_due _ _ _).
        - destruct (process_batch_returns (batch p ++ [data]) FILENAME _p env s0)
            as (b2 & s1 & Hrun).
          pose proof (balanced_process_batch (batch p ++ [data]) FILENAME _p env s0) as Hb.
          unfold bind. rewrite Hrun in *. cbn. eauto.
        - cbn. eauto. }
      destruct Hstep as (p1 & s1 & Hrun & Hflight). unfold bind in Hrun. rewrite Hrun.
      pose proof (Hflight ResultQueue) as Hres.
      pose proof (Hok ResultQueue) as Hnonneg.
      unfold in_flight, pending, backlog in Hres, Hnonneg. subst s0. cbn in Hres.
      unfold task_done_result, task_done. cbn.
      destruct (Z.ltb_spec (unfinished_tasks (car_data_result_queue s1) - 1) 0)
        as [Hlt|Hge]; [lia|].
      cbn. intros [].
      * exact (Hflight PageQueue).
      * exact (Hflight DetailQueue).
      * unfold in_flight, pending, backlog. cbn. lia.
    + unfold on_timeout, bind.
      destruct (process_batch_returns (batch p) FILENAME _p env
                  (log_event (EvEmpty ResultQueue) s)) as (b2 & s1 & Hrun).
      pose proof (balanced_process_batch (batch p) FILENAME _p env
                    (log_event (EvEmpty ResultQueue) s)) as Hb.
      rewrite Hrun in *. cbn in *. exact Hb.
Qed.

End InFlight.

(** ** More on the persister *)

Section MorePersister.
Context `{External}.

(** X7: A record that arrives while the batch is below [BATCH_SIZE] and less
    than [TIMEOUT_SECONDS] after the last save is appended to the batch and
    marked done at once, with no file operation: the record is in memory
    only.  When it was the last unfinished task of the result queue, the
    queue counts no unfinished task afterwards, so a [join] on it returns
    while the store file does not hold the record. *)
Theorem early_record_is_marked_done_unsaved _p now saved_at env p s data q :
  get (car_data_result_queue s) = Some (data, q) ->
  0 < unfinished_tasks (car_data_result_queue s) ->
  Z.of_nat (length (batch p ++ [data])) < BATCH_SIZE ->
  (now - last_save_time p < TIMEOUT_SECONDS)%Q ->
  exists s',
    save_car_data_worker _p now saved_at env p s
    = Finished ({| batch := batch p ++ [data];
                   last_save_time := last_save_time p |}, s') /\
    files s' = files s /\
    trace s' = trace s ++ [EvGet ResultQueue; EvTaskDone ResultQueue] /\
    items (car_data_result_queue s') = items q /\
    unfinished_tasks (car_data_result_queue s')
    = unfinished_tasks (car_data_result_queue s) - 1.
Proof.
  intros Hget Hpos Hsmall Hearly.
  unfold save_car_data_worker. rewrite Hget.
  pose proof (get_keeps_unfinished_tasks _ _ _ Hget) as Hq.
  unfold run_persister_turn, accept_result, bind, flush_due.
  destruct (Z.leb_spec BATCH_SIZE (Z.of_nat (length (batch p ++ [data])))); [lia|].
  destruct (Qle_bool TIMEOUT_SECONDS (now - last_save_time p)) eqn:Hdue.
  { apply Qle_bool_iff in Hdue. exfalso. exact (Qlt_not_le _ _ Hearly Hdue). }
  cbn. unfold task_done_result, task_done. cbn. rewrite Hq.
  destruct (Z.ltb_spec (unfinished_tasks (car_data_result_queue s) - 1) 0); [lia|].
  eexists. split; [reflexivity|]. cbn. rewrite <- !app_assoc. auto.
Qed.

(** X8: A record that arrives [TIMEOUT_SECONDS] or more after the last save
    triggers a flush of the batch, however small the batch is; and whether
    the flush succeeds or fails, the time of the last save becomes the
    clock reading taken after it, so a store that keeps failing is retried
    only after another [TIMEOUT_SECONDS] (or when the batch is full). *)
Theorem late_record_triggers_flush _p now saved_at env p s data q :
  get (car_data_result_queue s) = Some (data, q) ->
  0 < unfinished_tasks (car_data_result_queue s) ->
  (TIMEOUT_SECONDS <= now - last_save_time p)%Q ->
  exists saved s1 s',
    save_batch_to_file FILENAME (batch p ++ [data]) _p env
      (log_event (EvGet ResultQueue) (with_result_queue q s)) = (Ok saved, s1) /\
    save_car_data_worker _p now saved_at env p s
    = Finished ({| batch := if saved then [] else batch p ++ [data];
                   last_save_time := saved_at |}, s') /\
    files s' = files s1 /\
    unfinished_tasks (car_data_result_queue s')
    = unfinished_tasks (car_data_result_queue s) - 1.
Proof.
  intros Hget Hpos Hlate.
  unfold save_car_data_worker. rewrite Hget.
  pose proof (get_keeps_unfinished_tasks _ _ _ Hget) as Hq.
  unfold run_persister_turn, accept_result, bind, flush_due.
  apply Qle_bool_iff in Hlate. rewrite Hlate, orb_true_r.
  unfold process_batch.
  destruct (batch p ++ [data]) as [|r b] eqn:Hbatch; [now destruct (batch p)|].
  destruct (save_batch_to_file_returns FILENAME (r :: b) _p env
              (log_event (EvGet ResultQueue) (with_result_queue q s)))
    as (saved & s1 & evs & Hsave & _ & _ & Hres & _).
  unfold bind. rewrite Hsave.
  exists saved, s1. unfold task_done_result, task_done.
  assert (Hcount : unfinished_tasks (car_data_result_queue s1)
                   = unfinished_tasks (car_data_result_queue s)).
  { rewrite Hres. cbn. exact Hq. }
  destruct saved; cbn; rewrite Hcount;
    (destruct (Z.ltb_spec (unfinished_tasks (car_data_result_queue s) - 1) 0); [lia|]);
    eexists; (split; [reflexivity|]); cbn; auto.
Qed.

End MorePersister.

(** ** More on the store *)

Section MoreStore.
Context `{External}.

Ltac start_save filename :=
  pose proof (temp_filename_fresh RESULT_FOLDER_PATH filename) as Hfresh;
  unfold final_filename, temp_filename, whole_store in *;
  unfold_io;
  set (final := os_path_join RESULT_FOLDER_PATH filename) in *;
  set (temp := os_path_join RESULT_FOLDER_PATH ("_" +:+ filename)) in *.

(** X9: [load_existing_data] only reads: it leaves the folder and the queues
    as they are.  It returns the empty list for a missing file, without
    opening anything.  For a file whose text [json.load] parses it returns
    the parsed value, list or not; for a file whose text [json.load]
    rejects with [JSONDecodeError] it logs the error and returns the empty
    list.  That is the only exception it catches: a failure to open or to
    read the file is raised to the caller as [OSError], and a file whose
    bytes do not decode as text is raised to the caller as
    [UnicodeDecodeError], not read as empty. *)
Theorem load_existing_data_only_reads filename prefix env s :
  let r := load_existing_data filename prefix env s in
  files (snd r) = files s /\
  (forall q, pending q (snd r) = pending q s) /\
  match files s !! final_filename filename with
  | None =>
      fst r = Ok (JList []) /\
      trace (snd r) = trace s ++ [EvIo (IoExists (final_filename filename)) (files s)]
  | Some text =>
      match fault env with
      | Some AtOpenRead | Some AtRead => fst r = Raise OSError
      | Some AtDecode => fst r = Raise UnicodeDecodeError
      | _ =>
          match json_load text with
          | Some v => fst r = Ok v
          | None => fst r = Ok (JList []) /\ last (trace (snd r)) = Some EvLogError
          end
      end
  end.
Proof.
  unfold final_filename, load_existing_data, try_except, bind, ret, raise,
    os_path_exists, open_read, read_text, logger_error.
  set (final := os_path_join RESULT_FOLDER_PATH filename).
  cbn.
  destruct (files s !! final) as [text|] eqn:Hold; cbn.
  2: solve [repeat split; try (intros []; reflexivity)].
  rewrite Hold.
  destruct (fault env) as [[]|]; cbn; rewrite ?Hold; cbn;
    try (repeat split; solve [intros []; reflexivity]).
  all: destruct (json_load text) as [v|]; cbn;
    repeat split; try solve [intros []; reflexivity].
  all: apply last_snoc.
Qed.

(** A flush that meets no fault, over any folder: the statement of the
    store after it, for use below. *)
Lemma flush_without_fault filename batch prefix env s existing :
  fault env = None ->
  store_reads_as (files s !! final_filename filename) existing ->
  exists s',
    save_batch_to_file filename batch prefix env s = (Ok true, s') /\
    files s' =
      <[final_filename filename := json_dump (JList (existing ++ batch))]>
        (delete (temp_filename filename) (files s)).
Proof.
  intros Hfault Hreads. start_save filename.
  rewrite Hfault.
  inversion Hreads as [Hold | text Hload Hold | text xs Hload Hold];
    symmetry in Hold; io_crush.
  all: eexists; split; [reflexivity|]; cbn.
  all: apply map_eq; intros p;
    destruct (decide (p = final)) as [Hp|];
      [rewrite Hp | destruct (decide (p = temp)) as [Hp|]; [rewrite Hp|]];
    simplify_map_eq; done.
Qed.

(** X10: Two flushes in a row store what one flush of the two batches together
    stores, provided [json.load] reads back what [json.dump] wrote after
    the first: the store keeps the batches in the order they were
    flushed. *)
Theorem flushes_compose filename batch1 batch2 prefix env1 env2 s existing :
  fault env1 = None ->
  fault env2 = None ->
  store_reads_as (files s !! final_filename filename) existing ->
  json_load (json_dump (JList (existing ++ batch1))) = Some (JList (existing ++ batch1)) ->
  exists s1 s2,
    save_batch_to_file filename batch1 prefix env1 s = (Ok true, s1) /\
    save_batch_to_file filename batch2 prefix env2 s1 = (Ok true, s2) /\
    files s2 =
      <[final_filename filename := json_dump (JList (existing ++ batch1 ++ batch2))]>
        (delete (temp_filename filename) (files s)).
Proof.
  intros Hfault1 Hfault2 Hreads Hround.
  destruct (flush_without_fault filename batch1 prefix env1 s existing Hfault1 Hreads)
    as (s1 & Hsave1 & Hfiles1).
  assert (Hreads1 : store_reads_as (files s1 !! final_filename filename)
                      (existing ++ batch1)).
  { rewrite Hfiles1, lookup_insert_eq. apply list_store. exact Hround. }
  destruct (flush_without_fault filename batch2 prefix env2 s1 (existing ++ batch1)
              Hfault2 Hreads1) as (s2 & Hsave2 & Hfiles2).
  exists s1, s2. split; [exact Hsave1|]. split; [exact Hsave2|].
  rewrite Hfiles2, Hfiles1, <- app_assoc.
  pose proof (temp_filename_fresh RESULT_FOLDER_PATH filename) as Hfresh.
  unfold final_filename, temp_filename in *.
  rewrite delete_insert_ne by congruence.
  rewrite insert_insert_eq, delete_delete_eq. reflexivity.
Qed.

(** X11: A store that holds JSON other than a list can never be flushed to:
    [extend] fails before anything is written, so every flush returns
    [False] and leaves every file as it was, whatever else goes wrong. *)
Theorem flush_fails_on_store_that_is_no_list filename batch prefix env s text v :
  files s !! final_filename filename = Some text ->
  json_load text = Some v ->
  (forall xs, v <> JList xs) ->
  exists s',
    save_batch_to_file filename batch prefix env s = (Ok false, s') /\
    files s' = files s.
Proof.
  intros Hold Hload Hnolist. start_save filename. io_crush.
  all: try (eexists; split; reflexivity).
  all: destruct v as [| | | |xs|]; cbn; try (eexists; split; reflexivity).
  all: exfalso; exact (Hnolist xs eq_refl).
Qed.

(** X12: After a flush whose rename failed, the next flush that meets no fault
    succeeds but finds no store to read: the final file then holds the
    batch of that flush alone.  The records the store held before, which
    the failed flush left in the temporary file, are overwritten there
    and are in no file afterwards. *)
Theorem retry_after_failed_rename_drops_history
  filename batch1 batch2 prefix env1 env2 s text xs :
  fault env1 = Some AtRename ->
  fault env2 = None ->
  files s !! final_filename filename = Some text ->
  json_load text = Some (JList xs) ->
  exists s1 s2,
    save_batch_to_file filename batch1 prefix env1 s = (Ok false, s1) /\
    files s1 !! final_filename filename = None /\
    files s1 !! temp_filename filename = Some (json_dump (JList (xs ++ batch1))) /\
    save_batch_to_file filename batch2 prefix env2 s1 = (Ok true, s2) /\
    files s2 =
      <[final_filename filename := json_dump (JList batch2)]>
        (delete (temp_filename filename) (delete (final_filename filename) (files s))).
Proof.
  intros Hfault1 Hfault2 Hold Hload.
  assert (Hfirst : exists s1,
            save_batch_to_file filename batch1 prefix env1 s = (Ok false, s1) /\
            files s1 =
              <[temp_filename filename := json_dump (JList (xs ++ batch1))]>
                (delete (final_filename filename) (files s))).
  { start_save filename. rewrite Hfault1. io_crush.
    eexists. split; [reflexivity|]. cbn.
    apply map_eq; intros p;
      destruct (decide (p = final)) as [Hp|];
        [rewrite Hp | destruct (decide (p = temp)) as [Hp|]; [rewrite Hp|]];
      simplify_map_eq; done. }
  destruct Hfirst as (s1 & Hsave1 & Hfiles1).
  pose proof (temp_filename_fresh RESULT_FOLDER_PATH filename) as Hfresh.
  assert (Hgone : files s1 !! final_filename filename = None).
  { rewrite Hfiles1. unfold final_filename, temp_filename in *.
    rewrite lookup_insert_ne by congruence. apply lookup_delete_eq. }
  assert (Hreads : store_reads_as (files s1 !! final_filename filename) []).
  { rewrite Hgone. constructor. }
  destruct (flush_without_fault filename batch2 prefix env2 s1 [] Hfault2 Hreads)
    as (s2 & Hsave2 & Hfiles2).
  exists s1, s2. split; [exact Hsave1|]. split; [exact Hgone|].
  split; [rewrite Hfiles1; apply lookup_insert_eq|].
  split; [exact Hsave2|].
  rewrite Hfiles2, Hfiles1. cbn [app].
  rewrite delete_insert_eq. reflexivity.
Qed.

(** X13: A record accepted without a flush is saved by the next turn that
    finds the queue empty, if that turn meets no fault: the store then
    holds what it held, the records that were waiting in the batch and the
    new record, in the order of arrival, and the batch is empty. *)
Theorem early_record_is_saved_at_next_timeout
  _p now now' saved_at saved_at' env env' p s data q existing :
  get (car_data_result_queue s) = Some (data, q) ->
  items q = [] ->
  0 < unfinished_tasks (car_data_result_queue s) ->
  Z.of_nat (length (batch p ++ [data])) < BATCH_SIZE ->
  (now - last_save_time p < TIMEOUT_SECONDS)%Q ->
  fault env' = None ->
  store_reads_as (files s !! final_filename FILENAME) existing ->
  exists p1 s1 s2,
    save_car_data_worker _p now saved_at env p s = Finished (p1, s1) /\
    files s1 = files s /\
    save_car_data_worker _p now' saved_at' env' p1 s1
    = Finished ({| batch := []; last_save_time := saved_at' |}, s2) /\
    files s2 =
      <[final_filename FILENAME := json_dump (JList (existing ++ batch p ++ [data]))]>
        (delete (temp_filename FILENAME) (files s)).
Proof.
  intros Hget Hlast Hpos Hsmall Hearly Hfault Hreads.
  pose proof (get_keeps_unfinished_tasks _ _ _ Hget) as Hq.
  set (s1 := log_event (EvTaskDone ResultQueue)
               (with_result_queue
                  {| items := items q;
                     unfinished_tasks := unfinished_tasks q - 1 |}
                  (log_event (EvGet ResultQueue) (with_result_queue q s)))).
  destruct (flush_without_fault FILENAME (batch p ++ [data]) _p env'
              (log_event (EvEmpty ResultQueue) s1) existing Hfault Hreads)
    as (s2 & Hsave & Hfiles).
  exists {| batch := batch p ++ [data]; last_save_time := last_save_time p |}, s1, s2.
  split; [|split; [reflexivity|split; [|exact Hfiles]]].
  - unfold save_car_data_worker. rewrite Hget.
    unfold run_persister_turn, accept_result, bind, flush_due.
    destruct (Z.leb_spec BATCH_SIZE (Z.of_nat (length (batch p ++ [data])))); [lia|].
    destruct (Qle_bool TIMEOUT_SECONDS (now - last_save_time p)) eqn:Hdue.
    { apply Qle_bool_iff in Hdue. exfalso. exact (Qlt_not_le _ _ Hearly Hdue). }
    cbn. unfold task_done_result, task_done. cbn.
    destruct (Z.ltb_spec (unfinished_tasks q - 1) 0); [lia | reflexivity].
  - unfold save_car_data_worker, get. cbn [s1 car_data_result_queue log_event
      with_result_queue items]. rewrite Hlast.
    unfold run_persister_turn, on_timeout, bind, process_batch. cbn [batch].
    destruct (batch p ++ [data]) as [|r b] eqn:Hbatch; [now destruct (batch p)|].
    unfold bind. rewrite Hsave. reflexivity.
Qed.

End MoreStore.

(** ** The main thread *)

Section MoreMain.
Context `{External}.

(** X14: When the first fetch fails, [logger.catch] turns the failure into
    [None], and parsing [None] raises [TypeError] in the main thread,
    outside any [try]: nothing is queued and [join_all] is never reached.
    When the first page is fetched and all its listings are well formed,
    the main thread queues one request per listing and then the page's
    [next] link, exactly as a turn of the page worker does. *)
Theorem seed_queues_outcome env s :
  (forall e,
     http_get env (JStr START_URL) = Raise e ->
     exists s',
       seed_queues env s = (Raise TypeError, s') /\
       search_page_request_queue s' = search_page_request_queue s /\
       car_data_request_queue s' = car_data_request_queue s /\
       trace s' = trace s ++ [EvLogDebug; EvLogError]) /\
  (forall response listings requests,
     page_listings env (JStr START_URL) = Ok (response, listings) ->
     Forall2 (fun listing request => get_car_data_yield listing = Ok request)
       listings requests ->
     exists s',
       seed_queues env s = (Ok tt, s') /\
       items (car_data_request_queue s') = items (car_data_request_queue s) ++ requests /\
       search_page_request_queue s'
       = put (SearchPageLinks.next (SearchPageResponse.links response))
           (search_page_request_queue s) /\
       trace s'
       = trace s ++ EvLogDebug :: repeat (EvPut DetailQueue) (length requests)
           ++ [EvPut PageQueue]).
Proof.
  split.
  - intros e Hfetch.
    unfold seed_queues, bind, initial_data_fetch, try_except, bind, logger_debug,
      requests_get, lift.
    cbn. rewrite Hfetch. cbn. eexists. split; [reflexivity|]. cbn.
    rewrite <- !app_assoc. auto.
  - intros response listings requests Hpage Hall.
    unfold page_listings, rbind in Hpage.
    unfold seed_queues, bind, initial_data_fetch, try_except, bind, logger_debug,
      requests_get, lift.
    cbn.
    destruct (http_get env (JStr START_URL)) as [result|]; [|discriminate].
    destruct (new_search_page_response result) as [response'|]; [|discriminate].
    destruct (py_iter (SearchPageResponse.data response')) as [listings'|];
      [|discriminate].
    injection Hpage as -> ->.
    destruct (put_car_data_all listings requests env (log_event EvLogDebug s) Hall)
      as (s1 & Hrun & Hsame & Hitems & Htrace).
    rewrite Hrun. cbn. eexists. split; [reflexivity|]. cbn.
    split; [exact Hitems|]. split; [rewrite Hsame; reflexivity|].
    rewrite Htrace. cbn. rewrite <- !app_assoc. reflexivity.
Qed.

End MoreMain.

(** ** [parser.py]: what [flatten_car_data] returns, and what a failed or
    a second call leaves behind *)


Lemma dict_get_absent {V} k (kvs : list (string * V)) :
  ~ In k (map fst kvs) -> dict_get k kvs = None.
Proof.
  induction kvs as [|[k0 v0] kvs IH]; cbn; [reflexivity|].
  intros Hnot. destruct (String.eqb_spec k k0) as [->|]; [tauto|].
  apply IH. tauto.
Qed.

Lemma dict_set_keys {V} k (v : V) kvs k' :
  In k' (map fst (dict_set k v kvs)) -> k' = k \/ In k' (map fst kvs).
Proof.
  induction kvs as [|[k0 v0] kvs IH]; cbn.
  - intros [<-|[]]. left. reflexivity.
  - destruct (String.eqb_spec k k0) as [->|]; cbn.
    + intros [<-|Hin]; auto.
    + intros [<-|Hin]; [auto|]. destruct (IH Hin); auto.
Qed.

(** Assignments keep the keys of a dictionary distinct. *)
Lemma dict_set_distinct {V} k (v : V) kvs :
  List.NoDup (map fst kvs) -> List.NoDup (map fst (dict_set k v kvs)).
Proof.
  induction kvs as [|[k0 v0] kvs IH]; cbn; intros Hnd.
  - constructor; [tauto | constructor].
  - inversion Hnd as [|? ? Hk0 Hrest]; subst.
    destruct (String.eqb_spec k k0) as [->|Hne]; cbn.
    + constructor; assumption.
    + constructor; [|auto]. intros Hin. apply dict_set_keys in Hin.
      destruct Hin; [congruence | tauto].
Qed.

(** The dictionary display with two unpackings: a key of the second
    dictionary takes its value from there, any other key from the first. *)
Lemma dict_get_merge (a b : list (string * Parser.value)) k :
  List.NoDup (map fst b) ->
  dict_get k (Parser.merge a b)
  = match dict_get k b with
    | Some v => Some v
    | None => dict_get k a
    end.
Proof.
  unfold Parser.merge. revert a.
  induction b as [|[k0 v0] b IH]; intros a Hnd; cbn; [reflexivity|].
  inversion Hnd as [|? ? Hk0 Hrest]; subst.
  rewrite (IH _ Hrest), dict_get_set.
  destruct (String.eqb_spec k k0) as [->|]; [|reflexivity].
  rewrite (dict_get_absent k0 b Hk0). reflexivity.
Qed.

Section FlattenReturns.
Import Parser.

Lemma bind_ok {R S A B} (m : Comp R S A) (k : A -> Comp R S B) env s a s1 :
  m env s = (Ok a, s1) -> bind m k env s = k a env s1.
Proof. unfold bind. intros ->. reflexivity. Qed.

Lemma subscript_field h v k x :
  read_field h v k = Some x -> subscript v k tt h = (Ok x, h).
Proof.
  unfold read_field, subscript. destruct v as [| | | |l]; try discriminate.
  destruct (h !! l) as [[xs|kvs]|]; try discriminate.
  intros ->. reflexivity.
Qed.

Lemma iterate_list h v xs :
  read_list h v = Some xs -> iterate v tt h = (Ok xs, h).
Proof.
  unfold read_list, iterate. destruct v as [| | | |l]; try discriminate.
  destruct (h !! l) as [[ys|kvs]|]; try discriminate.
  intros [= ->]. reflexivity.
Qed.

(** What the loops read from the record they still read after the writes
    to [car_attrs] and to new objects. *)
Lemma read_field_framed h la hc v k x :
  framed h la hc -> touched_key k = false ->
  read_field h v k = Some x -> read_field hc v k = Some x.
Proof.
  intros [_ Hobj] Hk. unfold read_field. destruct v as [| | | |l]; try discriminate.
  destruct (h !! l) as [[xs|kvs]|] eqn:Hl; try discriminate.
  destruct (Hobj l _ Hl) as (o' & -> & _ & [->|(kvs1 & kvs' & [= <-] & -> & Hsame)]).
  - auto.
  - rewrite (Hsame k Hk). auto.
Qed.

Lemma read_list_framed h la hc v xs :
  framed h la hc -> read_list h v = Some xs -> read_list hc v = Some xs.
Proof.
  intros [_ Hobj]. unfold read_list. destruct v as [| | | |l]; try discriminate.
  destruct (h !! l) as [[ys|kvs]|] eqn:Hl; try discriminate.
  destruct (Hobj l _ Hl) as (o' & -> & _ & [->|(kvs1 & kvs' & [=] & _)]).
  auto.
Qed.

Lemma framed_store h la hc ln acc acc' :
  framed h la hc -> (length h <= ln)%nat -> hc !! ln = Some (ODict acc) ->
  framed h la (<[ln := ODict acc']> hc).
Proof. intros Hframed Hln Hacc. apply (framed_write h la hc ln acc); auto. Qed.

(** The inner loop, over the items of one spec group. *)
Lemma item_loop_runs h la ln spec_name item_refs items :
  Forall2 (fun r it => read_item h r = Some it) item_refs items ->
  (length h <= ln)%nat ->
  forall hc acc,
    framed h la hc -> hc !! ln = Some (ODict acc) ->
    for_each item_refs (fun spec_item =>
      label <- subscript spec_item "label" ;;
      label' <- lift (snake label) ;;
      value <- subscript spec_item "value" ;;
      store_item (VRef ln) (spec_name +:+ "_" +:+ label') value) tt hc
    = (Ok tt,
       <[ln := ODict (fold_left
                        (fun acc it =>
                           dict_set (spec_name +:+ "_" +:+ snake_text (fst it)) (snd it) acc)
                        items acc)]> hc).
Proof.
  intros Hitems Hln.
  induction Hitems as [|r [label x] item_refs items Hr _ IH]; intros hc acc Hframed Hacc.
  - cbn. rewrite list_insert_id; auto.
  - cbn [for_each fold_left fst snd].
    unfold read_item in Hr.
    destruct (read_field h r "label") as [[| | |label0|]|] eqn:Hlabel; try discriminate.
    destruct (read_field h r "value") as [x0|] eqn:Hvalue; try discriminate.
    injection Hr as -> ->.
    apply (read_field_framed h la hc) in Hlabel; [|exact Hframed | reflexivity].
    apply (read_field_framed h la hc) in Hvalue; [|exact Hframed | reflexivity].
    unfold bind at 1. unfold bind at 1.
    rewrite (subscript_field _ _ _ _ Hlabel).
    unfold bind at 1. cbn [lift snake].
    unfold bind at 1. rewrite (subscript_field _ _ _ _ Hvalue).
    unfold store_item at 1. rewrite Hacc.
    fold (snake_text label).
    rewrite (IH _ (dict_set (spec_name +:+ "_" +:+ snake_text label) x acc)).
    + rewrite list_insert_insert_eq. reflexivity.
    + eapply framed_store; eauto.
    + apply list_lookup_insert_eq. eapply lookup_lt_Some; eauto.
Qed.

(** The outer loop, over the spec groups. *)
Lemma group_loop_runs h la ln group_refs groups :
  Forall2 (fun r g => read_group h r = Some g) group_refs groups ->
  (length h <= ln)%nat ->
  forall hc acc,
    framed h la hc -> hc !! ln = Some (ODict acc) ->
    for_each group_refs (fun spec_dict =>
      title <- subscript spec_dict "title" ;;
      spec_name <- lift (snake title) ;;
      attrs <- subscript spec_dict "attrs" ;;
      spec_items <- iterate attrs ;;
      for_each spec_items (fun spec_item =>
        label <- subscript spec_item "label" ;;
        label' <- lift (snake label) ;;
        value <- subscript spec_item "value" ;;
        store_item (VRef ln) (spec_name +:+ "_" +:+ label') value)) tt hc
    = (Ok tt,
       <[ln := ODict (fold_left
                        (fun acc g =>
                           fold_left
                             (fun acc it =>
                                dict_set (snake_text (fst g) +:+ "_" +:+ snake_text (fst it))
                                  (snd it) acc)
                             (snd g) acc)
                        groups acc)]> hc).
Proof.
  intros Hgroups Hln.
  induction Hgroups as [|r [title items] group_refs groups Hr _ IH];
    intros hc acc Hframed Hacc.
  - cbn. rewrite list_insert_id; auto.
  - cbn [for_each fold_left fst snd].
    unfold read_group in Hr.
    destruct (read_field h r "title") as [[| | |title0|]|] eqn:Htitle; try discriminate.
    destruct (read_field h r "attrs") as [attrs|] eqn:Hattrs; try discriminate.
    destruct (read_list h attrs) as [item_refs|] eqn:Hrefs; try discriminate.
    cbn in Hr.
    destruct (mapM (read_item h) item_refs) as [items0|] eqn:Hitems; try discriminate.
    cbn in Hr. injection Hr as -> ->.
    apply mapM_Some_1 in Hitems.
    apply (read_field_framed h la hc) in Htitle; [|exact Hframed | reflexivity].
    apply (read_field_framed h la hc) in Hattrs; [|exact Hframed | reflexivity].
    apply (read_list_framed h la hc) in Hrefs; [|exact Hframed].
    unfold bind at 1. unfold bind at 1.
    rewrite (subscript_field _ _ _ _ Htitle).
    unfold bind at 1. cbn [lift snake].
    unfold bind at 1. rewrite (subscript_field _ _ _ _ Hattrs).
    unfold bind at 1. rewrite (iterate_list _ _ _ Hrefs).
    fold (snake_text title).
    rewrite (item_loop_runs h la ln (snake_text title) item_refs items Hitems Hln
               hc acc Hframed Hacc).
    rewrite (IH _ (fold_left
                     (fun acc it =>
                        dict_set (snake_text title +:+ "_" +:+ snake_text (fst it))
                          (snd it) acc) items acc)).
    + rewrite list_insert_insert_eq. reflexivity.
    + eapply framed_store; eauto.
    + apply list_lookup_insert_eq. eapply lookup_lt_Some; eauto.
Qed.

(** [update] writes the entries one after the other, as the dictionary
    display does. *)
Lemma dict_update_runs la entries :
  forall h kvs,
    h !! la = Some (ODict kvs) ->
    dict_update (VRef la) entries tt h = (Ok tt, <[la := ODict (merge kvs entries)]> h).
Proof.
  unfold dict_update, merge.
  induction entries as [|[k0 v0] entries IH]; intros h kvs Hla; cbn [for_each fold_left].
  - cbn. rewrite list_insert_id; auto.
  - unfold bind, store_item at 1. rewrite Hla. cbn [fst snd].
    rewrite (IH _ (dict_set k0 v0 kvs)).
    + rewrite list_insert_insert_eq. reflexivity.
    + apply list_lookup_insert_eq. eapply lookup_lt_Some; eauto.
Qed.

Lemma merge_other_keys (a entries : list (string * value)) k :
  Forall (fun kv => String.eqb k (fst kv) = false) entries ->
  dict_get k (merge a entries) = dict_get k a.
Proof.
  unfold merge. intros Hall. revert a.
  induction Hall as [|[k0 v0] entries Hk0 _ IH]; intros a; cbn; [reflexivity|].
  rewrite IH, dict_get_set. cbn in Hk0. rewrite Hk0. reflexivity.
Qed.

Lemma flat_attrs_untouched kvs joined image k :
  touched_key k = false -> dict_get k (flat_attrs kvs joined image) = dict_get k kvs.
Proof.
  intros Hk. unfold flat_attrs. unfold touched_key in Hk.
  apply orb_false_elim in Hk as [Hk Himage_]. apply orb_false_elim in Hk as [Hst Himage].
  rewrite merge_other_keys.
  - rewrite dict_get_del, Himage, dict_get_set, Hst. reflexivity.
  - eapply Forall_impl; [apply image_entries_keys|]. cbn.
    intros kv Hprefix. destruct (String.eqb_spec k (fst kv)) as [->|]; congruence.
Qed.

Lemma fold_dict_set_distinct {A V} (key : A -> string) (val : A -> V) xs :
  forall acc : list (string * V),
    List.NoDup (map fst acc) ->
    List.NoDup (map fst (fold_left (fun acc x => dict_set (key x) (val x) acc) xs acc)).
Proof.
  induction xs as [|x xs IH]; intros acc Hacc; cbn; [exact Hacc|].
  apply IH, dict_set_distinct, Hacc.
Qed.

Lemma image_entries_distinct image : List.NoDup (map fst (image_entries image)).
Proof.
  unfold image_entries.
  apply (fold_dict_set_distinct (fun kv => "image_" +:+ fst kv) snd). constructor.
Qed.

Lemma flat_specs_distinct groups : List.NoDup (map fst (flat_specs groups)).
Proof.
  unfold flat_specs.
  assert (Hgen : forall acc : list (string * value),
            List.NoDup (map fst acc) ->
            List.NoDup (map fst
              (fold_left
                 (fun acc g =>
                    fold_left
                      (fun acc it =>
                         dict_set (snake_text (fst g) +:+ "_" +:+ snake_text (fst it))
                           (snd it) acc)
                      (snd g) acc)
                 groups acc))).
  { induction groups as [|g groups IH]; intros acc Hacc; cbn; [exact Hacc|].
    apply IH.
    apply (fold_dict_set_distinct
             (fun it => snake_text (fst g) +:+ "_" +:+ snake_text (fst it)) snd).
    exact Hacc. }
  apply Hgen. constructor.
Qed.

(** X15: on a record of the expected shape ([seller_types] a list of
    strings, [image] a dictionary of its own, [car_specs] a list of groups
    with a title and a list of labelled items, titles and labels in ASCII)
    [flatten_car_data] returns a new dictionary, and the heap it leaves is
    the given one with [car_attrs] rewritten in place and two objects
    added: the spec labels, and the output.  The output is the seed
    attributes overlaid with the spec labels: a key [<title>_<label>] has
    the value of the last item of that key; [image_<k>] has the image's
    entry; [seller_types] is the joined string; [image] is absent; and
    every other key has the seed attribute's value. *)
Theorem flatten_car_data_overlays_specs
  h lc record la kvs ls parts joined li image car_specs groups :
  h !! lc = Some (ODict record) ->
  dict_get "car_attrs" record = Some (VRef la) ->
  dict_get "car_specs" record = Some car_specs ->
  h !! la = Some (ODict kvs) ->
  dict_get "seller_types" kvs = Some (VRef ls) ->
  h !! ls = Some (OList parts) ->
  join "," parts = Ok joined ->
  dict_get "image" kvs = Some (VRef li) ->
  li <> la ->
  h !! li = Some (ODict image) ->
  read_groups h car_specs = Some groups ->
  ascii_labels groups = true ->
  let attrs := flat_attrs kvs joined image in
  let specs := flat_specs groups in
  flatten_car_data (VRef lc) tt h
  = (Ok (VRef (S (length h))),
     <[la := ODict attrs]> h ++ [ODict specs; ODict (merge attrs specs)]) /\
  forall k,
    dict_get k (merge attrs specs)
    = match dict_get k specs with
      | Some v => Some v
      | None =>
          match dict_get k (image_entries image) with
          | Some v => Some v
          | None =>
              if String.eqb k "image" then None
              else if String.eqb k "seller_types" then Some (VStr joined)
              else dict_get k kvs
          end
      end.
Proof.
  intros Hlc Hattrs Hspecs Hla Hst Hls Hjoin Himage Hli Hli' Hgroups _ attrs specs.
  pose proof (lookup_lt_Some _ _ _ Hla) as Hlt.
  split.
  - unfold read_groups in Hgroups.
    destruct (read_list h car_specs) as [group_refs|] eqn:Hrefs; [|discriminate].
    cbn in Hgroups. apply mapM_Some_1 in Hgroups.
    set (h3 := <[la := ODict attrs]> h).
    assert (Hframed3 : framed h la h3).
    { apply (framed_write h la h la kvs); [apply framed_refl | exact Hla |].
      left. split; [reflexivity|]. intros k Hk. apply flat_attrs_untouched, Hk. }
    assert (Hlen3 : length h3 = length h) by apply length_insert.
    assert (Hframed4 : framed h la (h3 ++ [ODict []])).
    { pose proof (keeps_alloc h la (ODict []) h3 Hframed3) as Halloc.
      cbn in Halloc. tauto. }
    assert (Hnew : (h3 ++ [ODict []]) !! length h = Some (ODict [])).
    { rewrite lookup_app_r by lia. rewrite Hlen3, Nat.sub_diag. reflexivity. }
    apply (read_list_framed h la (h3 ++ [ODict []])) in Hrefs; [|exact Hframed4].
    assert (E1 : subscript (VRef lc) "car_attrs" tt h = (Ok (VRef la), h))
      by (unfold subscript; rewrite Hlc, Hattrs; reflexivity).
    assert (E2 : subscript (VRef lc) "car_specs" tt h = (Ok car_specs, h))
      by (unfold subscript; rewrite Hlc, Hspecs; reflexivity).
    assert (E3 : subscript (VRef la) "seller_types" tt h = (Ok (VRef ls), h))
      by (unfold subscript; rewrite Hla, Hst; reflexivity).
    assert (E4 : iterate (VRef ls) tt h = (Ok parts, h))
      by (unfold iterate; rewrite Hls; reflexivity).
    assert (E5 : lift (R := unit) (join "," parts) tt h = (Ok joined, h))
      by (unfold lift; rewrite Hjoin; reflexivity).
    set (h1 := <[la := ODict (dict_set "seller_types" (VStr joined) kvs)]> h).
    assert (E6 : store_item (VRef la) "seller_types" (VStr joined) tt h = (Ok tt, h1))
      by (unfold store_item; rewrite Hla; reflexivity).
    set (h2 := <[la := ODict (dict_del "image"
                                (dict_set "seller_types" (VStr joined) kvs))]> h).
    assert (E7 : dict_pop (VRef la) "image" tt h1 = (Ok (VRef li), h2)).
    { unfold dict_pop, h1. rewrite list_lookup_insert_eq by exact Hlt.
      rewrite dict_get_set. cbn [String.eqb Ascii.eqb Bool.eqb]. rewrite Himage.
      rewrite list_insert_insert_eq. reflexivity. }
    assert (E8 : dict_items (VRef li) tt h2 = (Ok image, h2)).
    { unfold dict_items, h2. rewrite list_lookup_insert_ne by congruence.
      rewrite Hli'. reflexivity. }
    assert (E9 : dict_update (VRef la) (image_entries image) tt h2 = (Ok tt, h3)).
    { rewrite (dict_update_runs la (image_entries image) h2
                 (dict_del "image" (dict_set "seller_types" (VStr joined) kvs)))
        by (apply list_lookup_insert_eq; exact Hlt).
      unfold h2. rewrite list_insert_insert_eq. reflexivity. }
    assert (E10 : alloc (ODict []) tt h3 = (Ok (VRef (length h)), h3 ++ [ODict []]))
      by (unfold alloc; rewrite Hlen3; reflexivity).
    pose proof (iterate_list _ _ _ Hrefs) as E11.
    pose proof (group_loop_runs h la (length h) group_refs groups Hgroups (le_n _)
                  (h3 ++ [ODict []]) [] Hframed4 Hnew) as E12.
    fold (flat_specs groups) in E12. fold specs in E12.
    replace (<[length h := ODict specs]> (h3 ++ [ODict []]))
      with (h3 ++ [ODict specs]) in E12.
    2:{ rewrite <- Hlen3. rewrite (insert_app_r_alt h3 [ODict []] (length h3)) by lia.
        rewrite Nat.sub_diag. reflexivity. }
    assert (E13 : dict_items (VRef la) tt (h3 ++ [ODict specs])
                  = (Ok attrs, h3 ++ [ODict specs])).
    { unfold dict_items. rewrite lookup_app_l by lia.
      unfold h3. rewrite list_lookup_insert_eq by exact Hlt. reflexivity. }
    assert (E14 : dict_items (VRef (length h)) tt (h3 ++ [ODict specs])
                  = (Ok specs, h3 ++ [ODict specs])).
    { unfold dict_items. rewrite lookup_app_r by lia.
      rewrite Hlen3, Nat.sub_diag. reflexivity. }
    unfold flatten_car_data.
    rewrite (bind_ok _ _ _ _ _ _ E1); cbv beta.
    rewrite (bind_ok _ _ _ _ _ _ E2); cbv beta.
    rewrite (bind_ok _ _ _ _ _ _ E3); cbv beta.
    rewrite (bind_ok _ _ _ _ _ _ E4); cbv beta.
    rewrite (bind_ok _ _ _ _ _ _ E5); cbv beta.
    rewrite (bind_ok _ _ _ _ _ _ E6); cbv beta.
    rewrite (bind_ok _ _ _ _ _ _ E7); cbv beta.
    rewrite (bind_ok _ _ _ _ _ _ E8); cbv beta.
    rewrite (bind_ok _ _ _ _ _ _ E9); cbv beta.
    rewrite (bind_ok _ _ _ _ _ _ E10); cbv beta.
    rewrite (bind_ok _ _ _ _ _ _ E11); cbv beta.
    rewrite (bind_ok _ _ _ _ _ _ E12); cbv beta.
    rewrite (bind_ok _ _ _ _ _ _ E13); cbv beta.
    rewrite (bind_ok _ _ _ _ _ _ E14); cbv beta.
    unfold alloc. rewrite length_app, Hlen3. cbn [length].
    rewrite Nat.add_1_r, <- app_assoc. reflexivity.
  - intros k. subst attrs specs.
    rewrite dict_get_merge by apply flat_specs_distinct.
    destruct (dict_get k (flat_specs groups)); [reflexivity|].
    unfold flat_attrs.
    rewrite dict_get_merge by apply image_entries_distinct.
    destruct (dict_get k (image_entries image)); [reflexivity|].
    rewrite dict_get_del, dict_get_set. reflexivity.
Qed.

End FlattenReturns.

Section MoreFlatten.
Import Parser.











End MoreFlatten.

(** ** Further examples *)

(** The name [çars], of four characters (five bytes in UTF-8), and the
    name [cars1]. *)
Lemma get_valid_filename_ends_in_json_example :
  get_valid_filename [231; 97; 114; 115]%N = Raise ValueError /\
  get_valid_filename (str_of "cars1") = Ok (str_of "cars1.json").
Proof.
  split.
  - pose proof (get_valid_filename_ends_in_json [231; 97; 114; 115]%N) as Hname.
    destruct (get_valid_filename [231; 97; 114; 115]%N) as [filename|e].
    + destruct Hname as [Hlen _]. cbn in Hlen. lia.
    + destruct Hname as [-> _]. reflexivity.
  - pose proof (get_valid_filename_ends_in_json (str_of "cars1")) as Hname.
    destruct (get_valid_filename (str_of "cars1")) as [filename|e].
    + destruct Hname as (_ & _ & -> & _). reflexivity.
    + destruct Hname as [_ Hlen]. cbn in Hlen. lia.
Defined.

(** A store whose bytes are not text. *)
Lemma load_existing_data_only_reads_example :
  fst (@load_existing_data sample_external "cars.json" "" (sample_env (Some AtDecode))
         (sample_system stored_undecodable))
  = Raise UnicodeDecodeError.
Proof.
  pose proof (@load_existing_data_only_reads sample_external "cars.json" ""
                (sample_env (Some AtDecode)) (sample_system stored_undecodable))
    as (_ & _ & Hraised).
  exact Hraised.
Defined.

(** A page link that the sample server does not know. *)
Lemma unreadable_page_ends_the_chain_example :
  exists s',
    @search_page_worker sample_external (sample_env None) page_pending = Finished s' /\
    items (search_page_request_queue s') = [] /\
    items (car_data_request_queue s') = [].
Proof.
  destruct (@unreadable_page_ends_the_chain sample_external (sample_env None) page_pending
              (JStr "https://page/3") {| items := []; unfinished_tasks := 1 |}
              RequestException)
    as (s' & Hturn & Hpage & _ & Hdetail & _).
  - reflexivity.
  - reflexivity.
  - reflexivity.
  - exists s'. rewrite Hpage, Hdetail. auto.
Defined.

(** A page of three listings whose second has no [attributes]: one request
    is queued, and the [next] link [https://page/2] is not. *)
Lemma malformed_listing_ends_the_chain_example :
  exists s',
    @search_page_worker sample_external sample_broken_online page_pending = Finished s' /\
    items (car_data_request_queue s')
    = [(CAR_DATA_LINK +:+ "/ABC/2020",
        JDict [("code", JStr "ABC"); ("year", JNum 2020)])] /\
    items (search_page_request_queue s') = [].
Proof.
  destruct (@malformed_listing_ends_the_chain sample_external sample_broken_online
              page_pending (JStr "https://page/3") {| items := []; unfinished_tasks := 1 |}
              {| SearchPageResponse.links :=
                   {| SearchPageLinks.self := JStr "https://page/1";
                      SearchPageLinks.first := JStr "";
                      SearchPageLinks.next := JStr "https://page/2";
                      SearchPageLinks.prev := JStr "";
                      SearchPageLinks.last := JStr "" |};
                 SearchPageResponse.data :=
                   JList [sample_listing "ABC"; JDict [("id", JNum 7)];
                          sample_listing "XYZ"];
                 SearchPageResponse.current_page := JNum 1;
                 SearchPageResponse.total_pages := JNum 3 |}
              [sample_listing "ABC"] (JDict [("id", JNum 7)]) [sample_listing "XYZ"]
              [(CAR_DATA_LINK +:+ "/ABC/2020",
                JDict [("code", JStr "ABC"); ("year", JNum 2020)])]
              KeyError)
    as (s' & Hturn & Hdetail & Hpage & _).
  - reflexivity.
  - reflexivity.
  - reflexivity.
  - repeat constructor.
  - reflexivity.
  - exists s'. auto.
Defined.

(** A detail resource with nothing under ["data"]. *)
Lemma failed_detail_request_is_dropped_example :
  exists s',
    car_data_worker sample_online (detail_pending "https://detail/none") = Finished s' /\
    items (car_data_result_queue s') = [] /\
    unfinished_tasks (car_data_request_queue s') = 0.
Proof.
  destruct (failed_detail_request_is_dropped sample_online
              (detail_pending "https://detail/none") "https://detail/none" sample_attrs
              {| items := []; unfinished_tasks := 1 |} IndexError)
    as (s' & Hturn & Hresult & _ & _ & Hcount & _).
  - reflexivity.
  - reflexivity.
  - reflexivity.
  - exists s'. rewrite Hresult, Hcount. auto.
Defined.

(** One page link waiting and nothing in flight: after the page worker's
    turn nothing is in flight, and the detail worker finds nothing to
    take. *)
Lemma turns_keep_queues_balanced_example :
  (forall q, in_flight q page_pending = 0) /\
  (exists s',
     @search_page_worker sample_external sample_online page_pending = Finished s' /\
     forall q, in_flight q s' = 0) /\
  car_data_worker sample_online page_pending = Blocked.
Proof.
  assert (Hnone : forall q, in_flight q page_pending = 0) by (intros []; reflexivity).
  split; [exact Hnone|].
  destruct (@turns_keep_queues_balanced sample_external "" 0%Q 1%Q sample_online
              one_waiting page_pending) as (Hpage & Hdetail & _).
  - intros q. rewrite Hnone. lia.
  - split.
    + destruct (@search_page_worker sample_external sample_online page_pending)
        as [|s'|e s']; [discriminate Hpage | | destruct Hpage].
      exists s'. split; [reflexivity|]. intros q. rewrite Hpage. apply Hnone.
    + reflexivity.
Defined.

(** A second record, one second after the last save. *)
Lemma early_record_is_marked_done_unsaved_example :
  exists s',
    @save_car_data_worker sample_external "" 1%Q 2%Q (sample_env None)
      one_waiting result_pending
    = Finished ({| batch := [sample_record; sample_record]; last_save_time := 0 |}, s') /\
    files s' = ∅ /\
    join_all_returns s'.
Proof.
  destruct (@early_record_is_marked_done_unsaved sample_external "" 1%Q 2%Q
              (sample_env None) one_waiting result_pending sample_record
              {| items := []; unfinished_tasks := 1 |})
    as (s' & Hturn & Hfiles & Htrace & Hitems & Hcount).
  - reflexivity.
  - reflexivity.
  - reflexivity.
  - reflexivity.
  - exists s'. split; [exact Hturn|]. split; [exact Hfiles|].
    unfold save_car_data_worker in Hturn. cbn in Hturn.
    injection Hturn as <-. repeat split.
Defined.

(** A second record, thirty seconds after the last save. *)
Lemma late_record_triggers_flush_example :
  exists s',
    @save_car_data_worker sample_external "" 30%Q 31%Q (sample_env None)
      one_waiting result_pending
    = Finished ({| batch := []; last_save_time := 31 |}, s') /\
    files s' !! "runs/cars.json"
    = Some (compact_dump (JList [sample_record; sample_record])).
Proof.
  destruct (@late_record_triggers_flush sample_external "" 30%Q 31%Q
              (sample_env None) one_waiting result_pending sample_record
              {| items := []; unfinished_tasks := 1 |})
    as (saved & s1 & s' & Hsave & Hturn & Hfiles & _).
  - reflexivity.
  - reflexivity.
  - vm_compute. discriminate.
  - assert (Hsaved : saved = true /\
                     files s1 !! "runs/cars.json"
                     = Some (compact_dump (JList [sample_record; sample_record]))).
    { vm_compute in Hsave. injection Hsave as <- <-. split; reflexivity. }
    destruct Hsaved as [-> Hstore].
    exists s'. split; [exact Hturn|]. rewrite Hfiles. exact Hstore.
Defined.

(** Two flushes of one record each into an empty folder. *)
Lemma flushes_compose_example :
  exists s1 s2,
    @save_batch_to_file sample_external "cars.json" [sample_record] ""
      (sample_env None) (sample_system ∅) = (Ok true, s1) /\
    @save_batch_to_file sample_external "cars.json" [sample_record] ""
      (sample_env None) s1 = (Ok true, s2) /\
    files s2 !! "runs/cars.json"
    = Some (compact_dump (JList [sample_record; sample_record])).
Proof.
  destruct (@flushes_compose sample_external "cars.json" [sample_record] [sample_record] ""
              (sample_env None) (sample_env None) (sample_system ∅) [])
    as (s1 & s2 & Hsave1 & Hsave2 & Hfiles).
  - reflexivity.
  - reflexivity.
  - apply missing_store.
  - vm_compute. reflexivity.
  - exists s1, s2. split; [exact Hsave1|]. split; [exact Hsave2|].
    rewrite Hfiles. vm_compute. reflexivity.
Defined.

(** A store that holds [{}]. *)
Lemma flush_fails_on_store_that_is_no_list_example :
  exists s',
    @save_batch_to_file sample_external "cars.json" [sample_record] ""
      (sample_env None) (sample_system stored_object) = (Ok false, s') /\
    files s' = stored_object.
Proof.
  apply (@flush_fails_on_store_that_is_no_list sample_external "cars.json" [sample_record] ""
           (sample_env None) (sample_system stored_object) (compact_dump (JDict []))
           (JDict [])).
  - reflexivity.
  - vm_compute. reflexivity.
  - intros xs Hxs. discriminate Hxs.
Defined.

(** A store of one record, a flush whose rename fails, and a retry. *)
Lemma retry_after_failed_rename_drops_history_example :
  exists s1 s2,
    @save_batch_to_file sample_external "cars.json" [sample_record] ""
      (sample_env (Some AtRename)) (sample_system stored_once) = (Ok false, s1) /\
    @save_batch_to_file sample_external "cars.json" [sample_record] ""
      (sample_env None) s1 = (Ok true, s2) /\
    files s2 !! "runs/cars.json" = Some (compact_dump (JList [sample_record])).
Proof.
  destruct (@retry_after_failed_rename_drops_history sample_external "cars.json"
              [sample_record] [sample_record] ""
              (sample_env (Some AtRename)) (sample_env None) (sample_system stored_once)
              (compact_dump (JList [sample_record])) [sample_record])
    as (s1 & s2 & Hsave1 & _ & _ & Hsave2 & Hfiles).
  - reflexivity.
  - reflexivity.
  - reflexivity.
  - vm_compute. reflexivity.
  - exists s1, s2. split; [exact Hsave1|]. split; [exact Hsave2|].
    rewrite Hfiles. vm_compute. reflexivity.
Defined.

(** The main thread against a server that is down, and against one whose
    first page is the sample page. *)
Lemma seed_queues_outcome_example :
  (exists s', @seed_queues sample_external (sample_env None) (sample_system ∅)
              = (Raise TypeError, s')) /\
  (exists s', @seed_queues sample_external sample_first_online (sample_system ∅)
              = (Ok tt, s') /\
              items (search_page_request_queue s') = [JStr ""]).
Proof.
  split.
  - destruct (@seed_queues_outcome sample_external (sample_env None) (sample_system ∅))
      as [Hdown _].
    destruct (Hdown RequestException eq_refl) as (s' & Hrun & _). eauto.
  - destruct (@seed_queues_outcome sample_external sample_first_online (sample_system ∅))
      as [_ Hup].
    destruct (Hup {| SearchPageResponse.links :=
                       {| SearchPageLinks.self := JStr "https://page/3";
                          SearchPageLinks.first := JStr "";
                          SearchPageLinks.next := JStr "";
                          SearchPageLinks.prev := JStr "";
                          SearchPageLinks.last := JStr "" |};
                     SearchPageResponse.data :=
                       JList [sample_listing "ABC"; sample_listing "XYZ"];
                     SearchPageResponse.current_page := JNum 3;
                     SearchPageResponse.total_pages := JNum 3 |}
                [sample_listing "ABC"; sample_listing "XYZ"]
                [(CAR_DATA_LINK +:+ "/ABC/2020",
                  JDict [("code", JStr "ABC"); ("year", JNum 2020)]);
                 (CAR_DATA_LINK +:+ "/XYZ/2020",
                  JDict [("code", JStr "XYZ"); ("year", JNum 2020)])])
      as (s' & Hrun & _ & Hpage & _).
    + reflexivity.
    + repeat constructor.
    + exists s'. split; [exact Hrun|]. rewrite Hpage. reflexivity.
Defined.

(** The sample record: the output read back from the heap. *)
Lemma flatten_car_data_overlays_specs_example :
  let '(car_data, h) := Parser.load_json Parser.sample_car_data [] in
  exists out h',
    Parser.flatten_car_data car_data tt h = (Ok out, h') /\
    Parser.to_json 6 h' out
    = Some (JDict [("code", JStr "ABC"); ("year", JNum 2020);
                   ("seller_types", JStr "dealer,private");
                   ("image_url", JStr "u.jpg");
                   ("engine_power_output", JStr "100kW")]).
Proof.
  destruct (Parser.load_json Parser.sample_car_data []) as [car_data h] eqn:Hload.
  vm_compute in Hload. injection Hload as <- <-.
  destruct (flatten_car_data_overlays_specs
              [Parser.OList [Parser.VStr "dealer"; Parser.VStr "private"];
               Parser.ODict [("url", Parser.VStr "u.jpg")];
               Parser.ODict
                 [("code", Parser.VStr "ABC"); ("year", Parser.VInt 2020);
                  ("seller_types", Parser.VRef 0); ("image", Parser.VRef 1)];
               Parser.ODict
                 [("label", Parser.VStr "Power Output"); ("value", Parser.VStr "100kW")];
               Parser.OList [Parser.VRef 3];
               Parser.ODict [("title", Parser.VStr "Engine"); ("attrs", Parser.VRef 4)];
               Parser.OList [Parser.VRef 5];
               Parser.ODict [("car_attrs", Parser.VRef 2); ("car_specs", Parser.VRef 6)]]
              7%nat [("car_attrs", Parser.VRef 2); ("car_specs", Parser.VRef 6)]
              2%nat
              [("code", Parser.VStr "ABC"); ("year", Parser.VInt 2020);
               ("seller_types", Parser.VRef 0); ("image", Parser.VRef 1)]
              0%nat [Parser.VStr "dealer"; Parser.VStr "private"] "dealer,private"
              1%nat [("url", Parser.VStr "u.jpg")] (Parser.VRef 6)
              [("Engine", [("Power Output", Parser.VStr "100kW")])])
    as [Hrun _]; try reflexivity.
  - discriminate.
  - eexists. eexists. split; [exact Hrun|]. vm_compute. reflexivity.
Defined.



(** A second record one second after the last save, and then a turn that
    finds the queue empty. *)
Lemma early_record_is_saved_at_next_timeout_example :
  exists p1 s1 s2,
    @save_car_data_worker sample_external "" 1%Q 2%Q (sample_env None)
      one_waiting result_pending = Finished (p1, s1) /\
    files s1 = ∅ /\
    @save_car_data_worker sample_external "" 40%Q 41%Q (sample_env None) p1 s1
    = Finished ({| batch := []; last_save_time := 41 |}, s2) /\
    files s2 !! "runs/cars.json"
    = Some (compact_dump (JList [sample_record; sample_record])).
Proof.
  destruct (@early_record_is_saved_at_next_timeout sample_external "" 1%Q 40%Q 2%Q 41%Q
              (sample_env None) (sample_env None) one_waiting result_pending
              sample_record {| items := []; unfinished_tasks := 1 |} [])
    as (p1 & s1 & s2 & Hfirst & Hfiles1 & Hsecond & Hfiles2).
  - reflexivity.
  - reflexivity.
  - reflexivity.
  - reflexivity.
  - reflexivity.
  - reflexivity.
  - apply missing_store.
  - exists p1, s1, s2. split; [exact Hfirst|]. split; [exact Hfiles1|].
    split; [exact Hsecond|]. rewrite Hfiles2. vm_compute. reflexivity.
Defined.
